(** * STT AI Editor: the recording controller and its pipeline

    A shallow embedding of [src/main.ts] (the Obsidian plugin
    [STTAiEditorPlugin] and its settings tab) and the properties of the
    capture -> transcription -> refinement -> delivery pipeline.

    The plugin is event driven: every method runs to its next [await] and is
    resumed by the host (browser, network, Obsidian).  The embedding is
    therefore a transition system.  A [World] holds the plugin's fields, the
    host objects the plugin created, and the continuations that are
    suspended at an [await]; an [Event] is one callback of the host; [step]
    runs the callback up to its next suspension point.  Every observable
    action of the plugin is appended to a log, tagged with the control flow
    that performed it.

    [transcribeAudio] and [cleanText] are read as [async] methods (the
    source spells the keyword [aasync]); both return promises. *)

From Stdlib Require Import ZArith NArith String Ascii Strings.Byte List Bool Lia.
From stdpp Require Import base list.
Import ListNotations.

Set Warnings "-register-all".

Local Open Scope string_scope.
Local Open Scope list_scope.

(** ** JavaScript values *)

Module JS.

(** What [response.json()] can produce, plus [undefined], which property
    reads produce.  A number is kept as an integer: the program never
    computes with a number of the response, it only tests its sign. *)
Inductive Val : Type :=
| Undefined
| Null
| Bool (b : bool)
| Num (z : Z)
| Str (s : string)
| Arr (items : list Val)
| Obj (fields : list (string * Val)).

(** An [Error] object (its [name] and [message]). *)
Record Error : Type := { err_name : string; err_message : string }.

(** Anything that can be thrown, or that a promise can be rejected with:
    the program rejects once with a bare string. *)
Inductive Thrown : Type :=
| ThrownString (s : string)
| ThrownError (e : Error).

(** The outcome of evaluating an expression, or of a settled promise. *)
Inductive Completion (A : Type) : Type :=
| Normal (a : A)
| Abrupt (t : Thrown).
Arguments Normal {A} a.
Arguments Abrupt {A} t.

Definition bind {A B} (c : Completion A) (k : A -> Completion B) : Completion B :=
  match c with
  | Normal a => k a
  | Abrupt t => Abrupt t
  end.

(** The property keys the program reads. *)
Inductive Key : Type := KResults | KLength | KAlternatives | KTranscript | KIndex0.

Definition key_name (k : Key) : string :=
  match k with
  | KResults => "results"
  | KLength => "length"
  | KAlternatives => "alternatives"
  | KTranscript => "transcript"
  | KIndex0 => "0"
  end.

Definition type_name (v : Val) : string :=
  match v with Null => "null" | _ => "undefined" end.

Definition cannot_read (v : Val) (k : Key) : Thrown :=
  ThrownError
    {| err_name := "TypeError";
       err_message := "Cannot read properties of " ++ type_name v
                      ++ " (reading '" ++ key_name k ++ "')" |}.

Fixpoint own_property (name : string) (fields : list (string * Val)) : option Val :=
  match fields with
  | [] => None
  | (k, v) :: rest => if String.eqb k name then Some v else own_property name rest
  end.

(** [v.k] and [v[0]]: reading a property of [undefined] or [null] throws a
    [TypeError]; numbers and booleans have none of these properties;
    strings and arrays have [length] and indices; an object has its own
    properties. *)
Definition get (v : Val) (k : Key) : Completion Val :=
  match v with
  | Undefined | Null => Abrupt (cannot_read v k)
  | Bool _ | Num _ => Normal Undefined
  | Str s =>
      match k with
      | KLength => Normal (Num (Z.of_nat (String.length s)))
      | KIndex0 =>
          match s with
          | EmptyString => Normal Undefined
          | String c _ => Normal (Str (String c EmptyString))
          end
      | _ => Normal Undefined
      end
  | Arr items =>
      match k with
      | KLength => Normal (Num (Z.of_nat (length items)))
      | KIndex0 =>
          match items with
          | [] => Normal Undefined
          | x :: _ => Normal x
          end
      | _ => Normal Undefined
      end
  | Obj fields =>
      match own_property (key_name k) fields with
      | Some x => Normal x
      | None => Normal Undefined
      end
  end.

(** ToBoolean. *)
Definition truthy (v : Val) : bool :=
  match v with
  | Undefined | Null => false
  | Bool b => b
  | Num z => negb (z =? 0)%Z
  | Str s => negb (String.eqb s "")
  | Arr _ | Obj _ => true
  end.

(** What a conversion throws when an object has no usable [valueOf] or
    [toString]. *)
Definition cannot_convert : Thrown :=
  ThrownError {| err_name := "TypeError";
                 err_message := "Cannot convert object to primitive value" |}.

Section Coercions.

(** ECMAScript's conversions of a string, an array or an object to a
    number, and of a value that is not a string to a string, are the
    engine's; they are parameters.  [None] is a conversion that throws. *)
Variable to_number_gt0 : Val -> option bool.
Variable to_string : Val -> option string.

(** [v > 0] *)
Definition gt0 (v : Val) : Completion bool :=
  match v with
  | Undefined | Null => Normal false
  | Bool b => Normal b
  | Num z => Normal (0 <? z)%Z
  | Str _ | Arr _ | Obj _ =>
      match to_number_gt0 v with
      | Some b => Normal b
      | None => Abrupt cannot_convert
      end
  end.

(** [`${v}`] *)
Definition template (v : Val) : Completion string :=
  match v with
  | Str s => Normal s
  | Undefined => Normal "undefined"
  | Null => Normal "null"
  | Bool true => Normal "true"
  | Bool false => Normal "false"
  | Num _ | Arr _ | Obj _ =>
      match to_string v with
      | Some s => Normal s
      | None => Abrupt cannot_convert
      end
  end.

End Coercions.

End JS.

#[global] Instance completion_ret : MRet JS.Completion := @JS.Normal.
#[global] Instance completion_bind : MBind JS.Completion :=
  fun A B k c => JS.bind c k.

(** ** Blobs, base64 and the data URL *)

Record Blob : Type := { blob_bytes : list byte; blob_type : string }.

(** [new Blob(parts, { type })]: the bytes of the parts, in order. *)
Definition new_Blob (parts : list Blob) (type : string) : Blob :=
  {| blob_bytes := concat (map blob_bytes parts); blob_type := type |}.

Definition base64_alphabet : string :=
  "ABCDEFGHIJKLMNOPQRSTUVWXYZabcdefghijklmnopqrstuvwxyz0123456789+/".

Definition sextet (n : N) : ascii :=
  match String.get (N.to_nat n) base64_alphabet with
  | Some c => c
  | None => "="%char
  end.

Fixpoint base64 (bs : list byte) : string :=
  match bs with
  | [] => ""
  | [a] =>
      let x := Byte.to_N a in
      String (sextet (x / 4)) (String (sextet ((x mod 4) * 16)) "==")
  | [a; b] =>
      let x := Byte.to_N a in
      let y := Byte.to_N b in
      String (sextet (x / 4))
        (String (sextet ((x mod 4) * 16 + y / 16))
           (String (sextet ((y mod 16) * 4)) "="))
  | a :: b :: c :: rest =>
      let x := Byte.to_N a in
      let y := Byte.to_N b in
      let z := Byte.to_N c in
      String (sextet (x / 4))
        (String (sextet ((x mod 4) * 16 + y / 16))
           (String (sextet ((y mod 16) * 4 + z / 64))
              (String (sextet (z mod 64)) (base64 rest))))
  end.

(** [reader.readAsDataURL(blob)] followed by [reader.result]: reading a
    blob that is held in memory does not fail. *)
Definition readAsDataURL (b : Blob) : string :=
  "data:"
  ++ (if String.eqb (blob_type b) "" then "application/octet-stream" else blob_type b)
  ++ ";base64," ++ base64 (blob_bytes b).

(** [s.split(sep)] for a separator of one character. *)
Fixpoint split (sep : ascii) (s : string) : list string :=
  match s with
  | EmptyString => [EmptyString]
  | String c rest =>
      if Ascii.eqb c sep then EmptyString :: split sep rest
      else match split sep rest with
           | [] => [String c EmptyString]
           | piece :: pieces => String c piece :: pieces
           end
  end.

(** ** The two remote services *)

Record RecognitionConfig : Type :=
  { cfg_encoding : string; cfg_sampleRateHertz : Z; cfg_languageCode : string }.

(** The request of [transcribeAudio]; [req_content] is [audio.content],
    which [JSON.stringify] leaves out when it is [undefined]. *)
Record FetchRequest : Type :=
  { req_url : string;
    req_method : string;
    req_content_type : string;
    req_config : RecognitionConfig;
    req_content : option string }.

(** How [fetch] followed by [response.json()] can settle.  [fetch] rejects
    only when no response arrives; a response of any status resolves. *)
Inductive FetchOutcome : Type :=
| NetworkFailure (e : JS.Error)
| Undecodable (status : Z) (e : JS.Error)
| Decoded (status : Z) (data : JS.Val).

Record GoogleGenerativeAI : Type := { apiKey : string }.

Record GenerateRequest : Type :=
  { gen_client : GoogleGenerativeAI; gen_model : string; gen_prompt : string }.

(** How [generateContent], [result.response] and [response.text()] can
    settle. *)
Inductive GenerateOutcome : Type :=
| GenerateFailed (e : JS.Error)
| GenerateText (s : string).

(** ** The plugin's fields *)

Record STTAiEditorSettings : Type :=
  { googleApiKey : string; geminiApiKey : string; languageCode : string }.

Definition DEFAULT_SETTINGS : STTAiEditorSettings :=
  {| googleApiKey := ""; geminiApiKey := ""; languageCode := "en-US" |}.

(** What [loadData()] resolves to: the keys of the stored object that are
    present ([null] has none). *)
Record StoredData : Type :=
  { stored_googleApiKey : option string;
    stored_geminiApiKey : option string;
    stored_languageCode : option string }.

(** [Object.assign({}, DEFAULT_SETTINGS, await this.loadData())] *)
Definition loadSettings (d : StoredData) : STTAiEditorSettings :=
  {| googleApiKey := default (googleApiKey DEFAULT_SETTINGS) (stored_googleApiKey d);
     geminiApiKey := default (geminiApiKey DEFAULT_SETTINGS) (stored_geminiApiKey d);
     languageCode := default (languageCode DEFAULT_SETTINGS) (stored_languageCode d) |}.

(** [mediaRecorder] is a handle: the index of the recorder among the
    [MediaRecorder] objects created so far. *)
Record Plugin : Type :=
  { settings : STTAiEditorSettings;
    isRecording : bool;
    mediaRecorder : option nat;
    audioChunks : list Blob;
    genAI : option GoogleGenerativeAI }.

Definition set_settings (s : STTAiEditorSettings) (p : Plugin) : Plugin :=
  {| settings := s; isRecording := isRecording p; mediaRecorder := mediaRecorder p;
     audioChunks := audioChunks p; genAI := genAI p |}.
Definition set_isRecording (b : bool) (p : Plugin) : Plugin :=
  {| settings := settings p; isRecording := b; mediaRecorder := mediaRecorder p;
     audioChunks := audioChunks p; genAI := genAI p |}.
Definition set_mediaRecorder (r : option nat) (p : Plugin) : Plugin :=
  {| settings := settings p; isRecording := isRecording p; mediaRecorder := r;
     audioChunks := audioChunks p; genAI := genAI p |}.
Definition set_audioChunks (c : list Blob) (p : Plugin) : Plugin :=
  {| settings := settings p; isRecording := isRecording p; mediaRecorder := mediaRecorder p;
     audioChunks := c; genAI := genAI p |}.
Definition set_genAI (g : option GoogleGenerativeAI) (p : Plugin) : Plugin :=
  {| settings := settings p; isRecording := isRecording p; mediaRecorder := mediaRecorder p;
     audioChunks := audioChunks p; genAI := g |}.

(** ** The host *)

(** A [MediaRecorder]: recording, stopped by [stop()] with its last events
    still to be delivered, or inactive.  A recorder that is recording can
    also stop on its own, when its track ends: the host then delivers its
    last segment and its [stop] event unasked. *)
Inductive RecorderState : Type := RecRecording | RecStopping | RecInactive.

(** How one invocation of [handleStop] ended. *)
Inductive Outcome : Type :=
| TranscribeRejected (t : JS.Thrown)
| CleanTextRejected (t : JS.Thrown)
| Completed (cleanedText : string) (delivered : bool).

(** Where one invocation of [handleStop] is suspended. *)
Inductive Stage : Type :=
| Reading (audioBlob : Blob)
| Fetching
| Generating
| Settled (o : Outcome).

Inductive Origin : Type :=
| Host
| Run (t : nat).

Inductive Action : Type :=
| AddRibbonIcon (icon title : string)
| AddSettingTab
| SaveData (s : STTAiEditorSettings)
| Notice (message : string)
| ConsoleError (label : option string) (err : JS.Thrown)
| GetUserMedia
| NewMediaRecorder (r : nat)
| RecorderStart (r : nat)
| RecorderStop (r : nat)
| ReadAsDataURL (b : Blob)
| Fetch (req : FetchRequest)
| CallCleanText (text : JS.Val)
| GenerateContent (req : GenerateRequest)
| ReplaceSelection (text : string)
| ClearChunks.

Record World : Type :=
  { plugin : Plugin;
    recorders : list RecorderState;
    micRequests : nat;
    runs : list Stage;
    activeEditor : bool;
    log : list (Origin * Action) }.

Definition set_plugin (p : Plugin) (w : World) : World :=
  {| plugin := p; recorders := recorders w; micRequests := micRequests w;
     runs := runs w; activeEditor := activeEditor w; log := log w |}.
Definition set_recorders (r : list RecorderState) (w : World) : World :=
  {| plugin := plugin w; recorders := r; micRequests := micRequests w;
     runs := runs w; activeEditor := activeEditor w; log := log w |}.
Definition set_micRequests (n : nat) (w : World) : World :=
  {| plugin := plugin w; recorders := recorders w; micRequests := n;
     runs := runs w; activeEditor := activeEditor w; log := log w |}.
Definition set_runs (r : list Stage) (w : World) : World :=
  {| plugin := plugin w; recorders := recorders w; micRequests := micRequests w;
     runs := r; activeEditor := activeEditor w; log := log w |}.
Definition set_activeEditor (b : bool) (w : World) : World :=
  {| plugin := plugin w; recorders := recorders w; micRequests := micRequests w;
     runs := runs w; activeEditor := b; log := log w |}.
Definition emit (o : Origin) (a : Action) (w : World) : World :=
  {| plugin := plugin w; recorders := recorders w; micRequests := micRequests w;
     runs := runs w; activeEditor := activeEditor w; log := log w ++ [(o, a)] |}.
Definition update_plugin (f : Plugin -> Plugin) (w : World) : World :=
  set_plugin (f (plugin w)) w.

Inductive Field : Type := GoogleApiKey | GeminiApiKey | LanguageCode.

Inductive Event : Type :=
| RibbonClick
| MicGranted
| MicDenied (e : JS.Error)
| DataAvailable (r : nat) (data : Blob)
| RecorderStopped (r : nat)
| ReaderLoadEnd (t : nat)
| FetchSettled (t : nat) (o : FetchOutcome)
| GenerateSettled (t : nat) (o : GenerateOutcome)
| SettingChanged (f : Field) (value : string)
| ActiveViewChanged (markdown : bool).

(** ** The plugin's methods *)

Definition newline : string := String (ascii_of_nat 10) EmptyString.

(** The text that precedes [${text}] in the prompt of [cleanText]. *)
Definition instruction : string :=
  "Please clean up the following text, correcting any grammar or spelling mistakes, and improving the overall readability. Do not add any new information or change the meaning of the text."
  ++ newline ++ newline.

Definition not_initialized : JS.Thrown :=
  JS.ThrownError {| JS.err_name := "Error"; JS.err_message := "Generative AI not initialized." |}.

Definition no_transcript : JS.Thrown := JS.ThrownString "No transcript found".

(** The field initialisers of the class. *)
Definition fresh_plugin : Plugin :=
  {| settings := DEFAULT_SETTINGS; isRecording := false; mediaRecorder := None;
     audioChunks := []; genAI := None |}.

(** [onload], given what [loadData()] resolves to. *)
Definition onload (d : StoredData) : World :=
  let s := loadSettings d in
  let p := set_settings s fresh_plugin in
  let p := if negb (String.eqb (geminiApiKey s) "")
           then set_genAI (Some {| apiKey := geminiApiKey s |}) p
           else p in
  emit Host AddSettingTab
    (emit Host (AddRibbonIcon "mic" "STT AI Editor")
       {| plugin := p; recorders := []; micRequests := 0; runs := [];
          activeEditor := false; log := [] |}).

(** The [onChange] handlers of the settings tab, each followed by
    [saveSettings]. *)
Definition onChange (f : Field) (value : string) (w : World) : World :=
  let s := settings (plugin w) in
  let s' :=
    match f with
    | GoogleApiKey =>
        {| googleApiKey := value; geminiApiKey := geminiApiKey s;
           languageCode := languageCode s |}
    | GeminiApiKey =>
        {| googleApiKey := googleApiKey s; geminiApiKey := value;
           languageCode := languageCode s |}
    | LanguageCode =>
        {| googleApiKey := googleApiKey s; geminiApiKey := geminiApiKey s;
           languageCode := value |}
    end in
  emit Host (SaveData s') (update_plugin (set_settings s') w).

(** [startRecording] up to [await getUserMedia]. *)
Definition startRecording (w : World) : World :=
  emit Host GetUserMedia (set_micRequests (S (micRequests w)) w).

(** [startRecording] resumed with a stream. *)
Definition startRecording_granted (w : World) : World :=
  let r := length (recorders w) in
  let w := emit Host (NewMediaRecorder r)
             (update_plugin (set_mediaRecorder (Some r))
                (set_recorders (recorders w ++ [RecRecording]) w)) in
  let w := emit Host (RecorderStart r) w in
  let w := update_plugin (set_isRecording true) w in
  emit Host (Notice "Recording started...") w.

(** [startRecording] resumed with a rejection: the [catch] block. *)
Definition startRecording_denied (err : JS.Error) (w : World) : World :=
  emit Host (ConsoleError (Some "Error accessing microphone:") (JS.ThrownError err))
    (emit Host (Notice "Error accessing microphone. Please check permissions.") w).

(** [recorder.stop()]: a recorder that is recording stops; on any other
    recorder the call returns and nothing happens (as in Chromium, the
    engine that runs the plugin). *)
Definition stop_recorder (r : nat) (l : list RecorderState) : list RecorderState :=
  match l !! r with
  | Some RecRecording => <[r := RecStopping]> l
  | _ => l
  end.

Definition stopRecording (w : World) : World :=
  match mediaRecorder (plugin w), isRecording (plugin w) with
  | Some r, true =>
      let w := emit Host (RecorderStop r)
                 (set_recorders (stop_recorder r (recorders w)) w) in
      let w := update_plugin (set_isRecording false) w in
      emit Host (Notice "Recording stopped.") w
  | _, _ => w
  end.

Definition toggleRecording (w : World) : World :=
  if isRecording (plugin w) then stopRecording w else startRecording w.

(** The [ondataavailable] handler. *)
Definition ondataavailable (data : Blob) (w : World) : World :=
  update_plugin (fun p => set_audioChunks (audioChunks p ++ [data]) p) w.

Definition set_stage (t : nat) (s : Stage) (w : World) : World :=
  set_runs (<[t := s]> (runs w)) w.

(** [handleStop] up to the first suspension of [transcribeAudio]. *)
Definition handleStop (w : World) : World :=
  let t := length (runs w) in
  let audioBlob := new_Blob (audioChunks (plugin w)) "audio/webm" in
  emit (Run t) (ReadAsDataURL audioBlob) (set_runs (runs w ++ [Reading audioBlob]) w).

Definition handleStop_catch (t : nat) (error : JS.Thrown) (w : World) : World :=
  emit (Run t) (ConsoleError None error)
    (emit (Run t) (Notice "Error processing audio. Please check the console for details.") w).

Definition handleStop_finally (t : nat) (w : World) : World :=
  emit (Run t) ClearChunks (update_plugin (set_audioChunks []) w).

(** The request that [reader.onloadend] sends. *)
Definition recognize_request (s : STTAiEditorSettings) (audioBlob : Blob) : FetchRequest :=
  let base64Audio := split "," (readAsDataURL audioBlob) !! 1 in
  {| req_url := "https://speech.googleapis.com/v1/speech:recognize?key=" ++ googleApiKey s;
     req_method := "POST";
     req_content_type := "application/json";
     req_config := {| cfg_encoding := "WEBM_OPUS"; cfg_sampleRateHertz := 48000;
                      cfg_languageCode := languageCode s |};
     req_content := base64Audio |}.

Definition transcribeAudio_onloadend (t : nat) (audioBlob : Blob) (w : World) : World :=
  set_stage t Fetching
    (emit (Run t) (Fetch (recognize_request (settings (plugin w)) audioBlob)) w).

(** [cleanText] once [generateContent] has settled. *)
Definition cleanText_settled (o : GenerateOutcome) : JS.Completion string :=
  match o with
  | GenerateFailed e => JS.Abrupt (JS.ThrownError e)
  | GenerateText cleanedText => JS.Normal cleanedText
  end.

(** [handleStop] once [cleanText] has settled. *)
Definition handleStop_cleaned (t : nat) (o : GenerateOutcome) (w : World) : World :=
  match cleanText_settled o with
  | JS.Normal cleanedText =>
      let editor := activeEditor w in
      let w := if editor then emit (Run t) (ReplaceSelection cleanedText) w else w in
      set_stage t (Settled (Completed cleanedText editor)) (handleStop_finally t w)
  | JS.Abrupt error =>
      set_stage t (Settled (CleanTextRejected error))
        (handleStop_finally t (handleStop_catch t error w))
  end.

Section Engine.

Variable to_number_gt0 : JS.Val -> option bool.
Variable to_string : JS.Val -> option string.

(** [data.results && data.results.length > 0] *)
Definition has_results (data : JS.Val) : JS.Completion bool :=
  results ← JS.get data JS.KResults;
  if JS.truthy results
  then len ← JS.get results JS.KLength; JS.gt0 to_number_gt0 len
  else JS.Normal false.

(** How the promise of [transcribeAudio] settles on a decoded body. *)
Definition read_transcript (data : JS.Val) : JS.Completion JS.Val :=
  found ← has_results data;
  if (found : bool) then
    results ← JS.get data JS.KResults;
    first ← JS.get results JS.KIndex0;
    alternatives ← JS.get first JS.KAlternatives;
    alternative ← JS.get alternatives JS.KIndex0;
    JS.get alternative JS.KTranscript
  else JS.Abrupt no_transcript.

(** How the promise of [transcribeAudio] settles. *)
Definition transcribeAudio_settled (o : FetchOutcome) : JS.Completion JS.Val :=
  match o with
  | NetworkFailure e => JS.Abrupt (JS.ThrownError e)
  | Undecodable _ e => JS.Abrupt (JS.ThrownError e)
  | Decoded _ data => read_transcript data
  end.

(** [cleanText] up to [await model.generateContent(prompt)]. *)
Definition cleanText (g : option GoogleGenerativeAI) (text : JS.Val)
  : JS.Completion GenerateRequest :=
  match g with
  | None => JS.Abrupt not_initialized
  | Some client =>
      shown ← JS.template to_string text;
      JS.Normal {| gen_client := client; gen_model := "gemini-pro";
                   gen_prompt := instruction ++ shown |}
  end.

(** [handleStop] once [transcribeAudio] has settled. *)
Definition handleStop_transcribed (t : nat) (o : FetchOutcome) (w : World) : World :=
  match transcribeAudio_settled o with
  | JS.Normal transcript =>
      let w := emit (Run t) (CallCleanText transcript) w in
      match cleanText (genAI (plugin w)) transcript with
      | JS.Normal req => set_stage t Generating (emit (Run t) (GenerateContent req) w)
      | JS.Abrupt error =>
          set_stage t (Settled (CleanTextRejected error))
            (handleStop_finally t (handleStop_catch t error w))
      end
  | JS.Abrupt error =>
      set_stage t (Settled (TranscribeRejected error))
        (handleStop_finally t (handleStop_catch t error w))
  end.

(** The stage that [handleStop] reaches when the recognition request
    settles with [o]. *)
Definition transcribed_stage (w : World) (o : FetchOutcome) : Stage :=
  match transcribeAudio_settled o with
  | JS.Abrupt err => Settled (TranscribeRejected err)
  | JS.Normal transcript =>
      match cleanText (genAI (plugin w)) transcript with
      | JS.Normal _ => Generating
      | JS.Abrupt err => Settled (CleanTextRejected err)
      end
  end.

(** One callback of the host.  An event that the host cannot deliver in
    the current world (a settlement for a request that is not in flight,
    data or a [stop] event from a recorder that is inactive) changes
    nothing.  [onstop] is bound for good: [handleStop] runs on every [stop]
    event, whether [stop()] was called or the recorder stopped on its own. *)
Definition step (e : Event) (w : World) : World :=
  match e with
  | RibbonClick => toggleRecording w
  | MicGranted =>
      match micRequests w with
      | O => w
      | S n => startRecording_granted (set_micRequests n w)
      end
  | MicDenied err =>
      match micRequests w with
      | O => w
      | S n => startRecording_denied err (set_micRequests n w)
      end
  | DataAvailable r data =>
      match recorders w !! r with
      | Some RecRecording | Some RecStopping => ondataavailable data w
      | _ => w
      end
  | RecorderStopped r =>
      match recorders w !! r with
      | Some RecRecording | Some RecStopping =>
          handleStop (set_recorders (<[r := RecInactive]> (recorders w)) w)
      | _ => w
      end
  | ReaderLoadEnd t =>
      match runs w !! t with
      | Some (Reading audioBlob) => transcribeAudio_onloadend t audioBlob w
      | _ => w
      end
  | FetchSettled t o =>
      match runs w !! t with
      | Some Fetching => handleStop_transcribed t o w
      | _ => w
      end
  | GenerateSettled t o =>
      match runs w !! t with
      | Some Generating => handleStop_cleaned t o w
      | _ => w
      end
  | SettingChanged f value => onChange f value w
  | ActiveViewChanged markdown => set_activeEditor markdown w
  end.

Fixpoint run (events : list Event) (w : World) : World :=
  match events with
  | [] => w
  | e :: rest => run rest (step e w)
  end.

End Engine.

(** ** The state machine of the specification, read off the world *)

Inductive MachineState : Type := Idle | Recording | Processing.

Definition in_flight (s : Stage) : bool :=
  match s with
  | Settled _ => false
  | _ => true
  end.

Definition stopping (r : RecorderState) : bool :=
  match r with
  | RecStopping => true
  | _ => false
  end.

(** [Recording] is the flag [isRecording].  [Processing] is: [stop()] was
    issued (the flag is down) and a recorder has yet to confirm, or a
    pipeline has yet to settle.  A request for the microphone that is still
    unanswered leaves the machine where it is.  [handleStop] never touches
    the flag: after a recorder has stopped on its own the flag is still up. *)
Definition machine_state (w : World) : MachineState :=
  if isRecording (plugin w) then Recording
  else if existsb stopping (recorders w) || existsb in_flight (runs w) then Processing
  else Idle.

(** The actions of one invocation of [handleStop], oldest first. *)
Definition by_run (t : nat) (entry : Origin * Action) : bool :=
  match fst entry with
  | Run t' => Nat.eqb t t'
  | Host => false
  end.

Definition trace (t : nat) (w : World) : list Action :=
  map snd (List.filter (by_run t) (log w)).

Definition is_clear (a : Action) : bool :=
  match a with ClearChunks => true | _ => false end.
Definition is_delivery (a : Action) : bool :=
  match a with ReplaceSelection _ => true | _ => false end.
Definition is_refinement (a : Action) : bool :=
  match a with CallCleanText _ | GenerateContent _ => true | _ => false end.
Definition is_request (a : Action) : bool :=
  match a with Fetch _ | GenerateContent _ => true | _ => false end.
Definition is_capture (a : Action) : bool :=
  match a with GetUserMedia | NewMediaRecorder _ | RecorderStart _ => true | _ => false end.

Definition count (f : Action -> bool) (l : list Action) : nat :=
  length (List.filter f l).

(** The actions the log gained between two worlds, whoever performed them. *)
Definition gained (w w' : World) : list Action :=
  map snd (drop (length (log w)) (log w')).

Definition failure_notice : Action :=
  Notice "Error processing audio. Please check the console for details.".

(** The trace that [handleStop] has left when it is suspended at, or has
    ended in, a given stage. *)
Inductive trace_at : Stage -> list Action -> Prop :=
| trace_reading b :
    trace_at (Reading b) [ReadAsDataURL b]
| trace_fetching b req :
    trace_at Fetching [ReadAsDataURL b; Fetch req]
| trace_generating b req text gen :
    trace_at Generating [ReadAsDataURL b; Fetch req; CallCleanText text; GenerateContent gen]
| trace_transcribe_rejected b req err :
    trace_at (Settled (TranscribeRejected err))
      [ReadAsDataURL b; Fetch req; failure_notice; ConsoleError None err; ClearChunks]
| trace_cleanText_threw b req text err :
    trace_at (Settled (CleanTextRejected err))
      [ReadAsDataURL b; Fetch req; CallCleanText text;
       failure_notice; ConsoleError None err; ClearChunks]
| trace_generate_rejected b req text gen err :
    trace_at (Settled (CleanTextRejected err))
      [ReadAsDataURL b; Fetch req; CallCleanText text; GenerateContent gen;
       failure_notice; ConsoleError None err; ClearChunks]
| trace_delivered b req text gen cleaned :
    trace_at (Settled (Completed cleaned true))
      [ReadAsDataURL b; Fetch req; CallCleanText text; GenerateContent gen;
       ReplaceSelection cleaned; ClearChunks]
| trace_dropped b req text gen cleaned :
    trace_at (Settled (Completed cleaned false))
      [ReadAsDataURL b; Fetch req; CallCleanText text; GenerateContent gen;
       ClearChunks].

(** ** A concrete engine and concrete scenarios *)

Module Sample.

(** An engine for running scenarios; none of them reaches a conversion. *)
Definition to_number_gt0 (v : JS.Val) : option bool := Some false.
Definition to_string (v : JS.Val) : option string := Some "[object Object]".

Definition no_data : StoredData :=
  {| stored_googleApiKey := None; stored_geminiApiKey := None;
     stored_languageCode := None |}.

Definition both_keys : StoredData :=
  {| stored_googleApiKey := Some "g-key"; stored_geminiApiKey := Some "gem-key";
     stored_languageCode := None |}.

Definition chunk (bytes : list byte) : Blob :=
  {| blob_bytes := bytes; blob_type := "audio/webm;codecs=opus" |}.

Definition b1 : Blob := chunk [x01; x02; x03].
Definition b2 : Blob := chunk [x04; x05].
Definition b3 : Blob := chunk [x06].

(** A recognition response with one result. *)
Definition recognized (transcript : string) : JS.Val :=
  JS.Obj [("results",
           JS.Arr [JS.Obj [("alternatives",
                            JS.Arr [JS.Obj [("transcript", JS.Str transcript);
                                            ("confidence", JS.Num 1)]])]])].

(** A result without alternatives, and an alternative without transcript. *)
Definition no_alternatives : list (string * JS.Val) :=
  [("results", JS.Arr [JS.Obj [("resultEndTime", JS.Str "1.5s")]])].
Definition no_transcript_field : list (string * JS.Val) :=
  [("results", JS.Arr [JS.Obj [("alternatives", JS.Arr [JS.Obj [("confidence", JS.Num 1)]])]])].

(** The body of a response that reports an error of the service. *)
Definition service_error : JS.Val :=
  JS.Obj [("error", JS.Obj [("code", JS.Num 403);
                            ("message", JS.Str "The request is missing a valid API key.");
                            ("status", JS.Str "PERMISSION_DENIED")])].

Definition transcribe : FetchOutcome -> JS.Completion JS.Val :=
  transcribeAudio_settled to_number_gt0.

Definition failed_to_fetch : JS.Error :=
  {| JS.err_name := "TypeError"; JS.err_message := "Failed to fetch" |}.

Definition overloaded : JS.Error :=
  {| JS.err_name := "Error";
     JS.err_message := "[GoogleGenerativeAI Error]: The model is overloaded." |}.

(** Loaded with both keys, a note open, recording. *)
Definition to_recording : list Event := [ActiveViewChanged true; RibbonClick; MicGranted].

(** Two segments captured, [stop()] issued, the recorder has confirmed. *)
Definition to_processing : list Event :=
  to_recording
  ++ [DataAvailable 0 b1; RibbonClick; DataAvailable 0 b2; RecorderStopped 0].

(** The same, with the recognition request in flight. *)
Definition to_fetching : list Event := to_processing ++ [ReaderLoadEnd 0].

(** The same, with the request to the generative service in flight. *)
Definition heard : FetchOutcome := Decoded 200 (recognized "test phrase").
Definition to_generating : list Event := to_fetching ++ [FetchSettled 0 heard].

(** Recording stopped before any segment arrived. *)
Definition to_stopped_empty : list Event := [RibbonClick; MicGranted; RibbonClick].

(** Loaded without keys; both keys entered in the settings tab; then a
    recording, up to the recognition request. *)
Definition to_configured_late : list Event :=
  [SettingChanged GoogleApiKey "g-key"; SettingChanged GeminiApiKey "gem-key";
   ActiveViewChanged true; RibbonClick; MicGranted; DataAvailable 0 b1; RibbonClick;
   RecorderStopped 0; ReaderLoadEnd 0].

(** Loaded with both keys; the generative key erased in the settings tab;
    then a recording, up to the recognition request. *)
Definition to_erased_late : list Event :=
  [SettingChanged GeminiApiKey ""; ActiveViewChanged true; RibbonClick; MicGranted;
   DataAvailable 0 b1; RibbonClick; RecorderStopped 0; ReaderLoadEnd 0].

(** No note is open; a recording, up to the request to the generative
    service. *)
Definition to_generating_without_editor : list Event :=
  [RibbonClick; MicGranted; DataAvailable 0 b1; RibbonClick; RecorderStopped 0;
   ReaderLoadEnd 0; FetchSettled 0 heard].

End Sample.

(** ** What one callback does to the runs and to the log *)

(** The actions that only [handleStop] and the functions it calls perform. *)
Definition pipeline_action (a : Action) : bool :=
  match a with
  | ReadAsDataURL _ | Fetch _ | CallCleanText _ | GenerateContent _
  | ReplaceSelection _ | ClearChunks => true
  | _ => false
  end.

(** One resumption of [handleStop]: the stage it was suspended at, the
    actions it performs, the stage it reaches. *)
Inductive advances : Stage -> list Action -> Stage -> Prop :=
| adv_loaded b req :
    advances (Reading b) [Fetch req] Fetching
| adv_transcribe_rejected err :
    advances Fetching [failure_notice; ConsoleError None err; ClearChunks]
      (Settled (TranscribeRejected err))
| adv_cleanText_threw text err :
    advances Fetching
      [CallCleanText text; failure_notice; ConsoleError None err; ClearChunks]
      (Settled (CleanTextRejected err))
| adv_generate text gen :
    advances Fetching [CallCleanText text; GenerateContent gen] Generating
| adv_generate_rejected err :
    advances Generating [failure_notice; ConsoleError None err; ClearChunks]
      (Settled (CleanTextRejected err))
| adv_delivered cleaned :
    advances Generating [ReplaceSelection cleaned; ClearChunks]
      (Settled (Completed cleaned true))
| adv_dropped cleaned :
    advances Generating [ClearChunks] (Settled (Completed cleaned false)).

(** A callback is the host's own (ribbon, settings, recorder data), or it
    starts a run, or it resumes one; a resumption leaves the recorders and
    the flag alone, and one that settles the run leaves the buffer empty. *)
Inductive step_kind (w w' : World) : Prop :=
| kind_host acts :
    runs w' = runs w ->
    log w' = log w ++ map (pair Host) acts ->
    forallb (fun a => negb (pipeline_action a)) acts = true ->
    step_kind w w'
| kind_start b :
    runs w' = runs w ++ [Reading b] ->
    log w' = log w ++ [(Run (length (runs w)), ReadAsDataURL b)] ->
    step_kind w w'
| kind_advance t s acts s' :
    runs w !! t = Some s ->
    runs w' = <[t := s']> (runs w) ->
    log w' = log w ++ map (pair (Run t)) acts ->
    advances s acts s' ->
    recorders w' = recorders w ->
    isRecording (plugin w') = isRecording (plugin w) ->
    match s' with Settled _ => audioChunks (plugin w') = [] | _ => True end ->
    step_kind w w'.

(** The invariant of the runs: each has left the trace of its stage, and
    no trace belongs to a run that has not started. *)
Definition traces_ok (w : World) : Prop :=
  (forall t s, runs w !! t = Some s -> trace_at s (trace t w)) /\
  (forall t, length (runs w) <= t -> trace t w = []).

(** The invariant of the handle: it is one of the recorders created so
    far, and it is there while the flag is up.  (That recorder need not be
    recording: it may have stopped on its own.) *)
Definition handle_ok (w : World) : Prop :=
  (forall r, mediaRecorder (plugin w) = Some r -> r < length (recorders w)) /\
  (isRecording (plugin w) = true -> exists r, mediaRecorder (plugin w) = Some r).

(** Nothing is under way: every recorder is inactive and every run has
    settled.  The machine is then [Idle], and no recorder has been left
    recording without a handle. *)
Definition active (r : RecorderState) : bool :=
  match r with
  | RecInactive => false
  | _ => true
  end.

Definition quiescent (w : World) : bool :=
  negb (existsb active (recorders w)) && negb (existsb in_flight (runs w)).

(** The invariant of the buffer: it is empty whenever nothing is under way. *)
Definition buffer_ok (w : World) : Prop :=
  quiescent w = true -> audioChunks (plugin w) = [].

(** A string without a comma. *)
Definition comma_free (s : string) : Prop :=
  ~ In ","%char (list_ascii_of_string s).

(** Outside the runs, nothing performs an action of the pipeline. *)
Definition host_ok (w : World) : Prop :=
  forall a, In (Host, a) (log w) -> pipeline_action a = false.

(** A thrown value that is an [Error] object. *)
Definition is_error (t : JS.Thrown) : Prop := exists e, t = JS.ThrownError e.

Ltac split_cases :=
  repeat match goal with
         | |- context [match ?x with _ => _ end] => destruct x eqn:?
         end.

(** ** The settings tab and the stored data *)

(** One text field of the settings tab. *)
Record TextSetting : Type :=
  { row_name : string; row_desc : string; row_placeholder : string; row_value : string }.

(** [display]: the rows built after the container is emptied, each set to
    the current value of its setting. *)
Definition display (p : Plugin) : list TextSetting :=
  [ {| row_name := "Google API Key";
       row_desc := "Your Google Cloud Speech-to-Text API Key.";
       row_placeholder := "Enter your API key";
       row_value := googleApiKey (settings p) |};
    {| row_name := "Gemini API Key";
       row_desc := "Your Gemini API Key";
       row_placeholder := "Enter your API key";
       row_value := geminiApiKey (settings p) |};
    {| row_name := "Language Code";
       row_desc := "The language code for speech-to-text (e.g., en-US)";
       row_placeholder := "Enter language code";
       row_value := languageCode (settings p) |} ].

(** The row whose [onChange] handler edits a field. *)
Definition row_of (f : Field) : nat :=
  match f with
  | GoogleApiKey => 0
  | GeminiApiKey => 1
  | LanguageCode => 2
  end.

(** What [saveData(this.settings)] stores, as [loadData()] returns it. *)
Definition stored (s : STTAiEditorSettings) : StoredData :=
  {| stored_googleApiKey := Some (googleApiKey s);
     stored_geminiApiKey := Some (geminiApiKey s);
     stored_languageCode := Some (languageCode s) |}.

(** The stored data after the actions of a log: what was saved last, or
    what was there. *)
Fixpoint saved (d : StoredData) (l : list (Origin * Action)) : StoredData :=
  match l with
  | [] => d
  | (_, SaveData s) :: rest => saved (stored s) rest
  | _ :: rest => saved d rest
  end.

(** More observations on actions. *)
Definition is_notice (a : Action) : bool :=
  match a with Notice _ => true | _ => false end.
Definition is_fetch (a : Action) : bool :=
  match a with Fetch _ => true | _ => false end.
Definition is_generate (a : Action) : bool :=
  match a with GenerateContent _ => true | _ => false end.
Definition is_stop_of (r : nat) (entry : Origin * Action) : bool :=
  match snd entry with RecorderStop r' => Nat.eqb r r' | _ => false end.

(** Every blob that a run is reading was built by [handleStop]. *)
Definition readings_ok (w : World) : Prop :=
  forall t b, runs w !! t = Some (Reading b) -> blob_type b = "audio/webm".

(** An event that does not resume run [t]. *)
Definition elsewhere (t : nat) (e : Event) : bool :=
  match e with
  | ReaderLoadEnd t' | FetchSettled t' _ | GenerateSettled t' _ => negb (Nat.eqb t t')
  | _ => true
  end.

(** An event that is not the [stop] event of recorder [r]. *)
Definition not_stop_of (r : nat) (e : Event) : bool :=
  match e with
  | RecorderStopped r' => negb (Nat.eqb r r')
  | _ => true
  end.

(** How a run ends, given the client, whether an editor is active, and
    what the two services answer. *)
Definition run_outcome (to_number_gt0 : JS.Val -> option bool)
  (to_string : JS.Val -> option string)
  (g : option GoogleGenerativeAI) (editor : bool)
  (o1 : FetchOutcome) (o2 : GenerateOutcome) : Outcome :=
  match transcribeAudio_settled to_number_gt0 o1 with
  | JS.Abrupt err => TranscribeRejected err
  | JS.Normal transcript =>
      match cleanText to_string g transcript with
      | JS.Abrupt err => CleanTextRejected err
      | JS.Normal _ =>
          match o2 with
          | GenerateFailed e => CleanTextRejected (JS.ThrownError e)
          | GenerateText cleaned => Completed cleaned editor
          end
      end
  end.

(** ** Properties *)

Section Properties.

Variable to_number_gt0 : JS.Val -> option bool.
Variable to_string : JS.Val -> option string.

Local Abbreviation step := (step to_number_gt0 to_string).
Local Abbreviation run := (run to_number_gt0 to_string).
Local Abbreviation has_results := (has_results to_number_gt0).
Local Abbreviation read_transcript := (read_transcript to_number_gt0).
Local Abbreviation transcribeAudio_settled := (transcribeAudio_settled to_number_gt0).
Local Abbreviation cleanText := (cleanText to_string).
Local Abbreviation handleStop_transcribed := (handleStop_transcribed to_number_gt0 to_string).
Local Abbreviation transcribed_stage := (transcribed_stage to_number_gt0 to_string).

Lemma run_app (l1 l2 : list Event) (w : World) :
  run (l1 ++ l2) w = run l2 (run l1 w).
Proof. revert w. induction l1 as [|e l1 IH]; intros w; simpl; [reflexivity | apply IH]. Qed.

Lemma run_nil (w : World) : run [] w = w.
Proof. reflexivity. Qed.

(** Induction over the reachable worlds. *)
Lemma run_cons (e : Event) (rest : list Event) (w : World) :
  run (e :: rest) w = run rest (step e w).
Proof. reflexivity. Qed.

Lemma run_invariant (P : World -> Prop) :
  (forall e w, P w -> P (step e w)) ->
  forall events w, P w -> P (run events w).
Proof.
  intros Hstep events. induction events as [|e rest IH]; intros w Hw; simpl.
  - exact Hw.
  - apply IH, Hstep, Hw.
Qed.

Lemma step_classified (e : Event) (w : World) : step_kind w (step e w).
Proof.
  destruct e as [ | | err | r data | r | t | t o | t o | f value | markdown ]; simpl.
  - (* the ribbon icon *)
    unfold toggleRecording, stopRecording, startRecording.
    destruct (isRecording (plugin w)).
    + destruct (mediaRecorder (plugin w)) as [r|].
      * apply (kind_host _ _ [RecorderStop r; Notice "Recording stopped."]);
          simpl; try reflexivity. rewrite <- !app_assoc. reflexivity.
      * apply (kind_host _ _ []); simpl; try reflexivity. symmetry; apply app_nil_r.
    + apply (kind_host _ _ [GetUserMedia]); reflexivity.
  - (* the microphone is granted *)
    destruct (micRequests w) as [|n].
    + apply (kind_host _ _ []); simpl; try reflexivity. symmetry; apply app_nil_r.
    + apply (kind_host _ _ [NewMediaRecorder (length (recorders w));
                            RecorderStart (length (recorders w));
                            Notice "Recording started..."]);
        simpl; try reflexivity. rewrite <- !app_assoc. reflexivity.
  - (* the microphone is denied *)
    destruct (micRequests w) as [|n].
    + apply (kind_host _ _ []); simpl; try reflexivity. symmetry; apply app_nil_r.
    + apply (kind_host _ _
               [Notice "Error accessing microphone. Please check permissions.";
                ConsoleError (Some "Error accessing microphone:") (JS.ThrownError err)]);
        simpl; try reflexivity. rewrite <- !app_assoc. reflexivity.
  - (* a segment arrives *)
    apply (kind_host _ _ []).
    + destruct (recorders w !! r) as [[ | | ]|]; reflexivity.
    + destruct (recorders w !! r) as [[ | | ]|]; simpl; symmetry; apply app_nil_r.
    + reflexivity.
  - (* a recorder confirms that it has stopped *)
    destruct (recorders w !! r) as [[ | | ]|];
      try (apply (kind_start _ _ (new_Blob (audioChunks (plugin w)) "audio/webm"));
           reflexivity);
      apply (kind_host _ _ []); simpl; try reflexivity; symmetry; apply app_nil_r.
  - (* the reader has the data URL *)
    destruct (runs w !! t) as [[b | | | o]|] eqn:Hs;
      try (apply (kind_host _ _ []); simpl; try reflexivity; symmetry; apply app_nil_r).
    apply (kind_advance _ _ t (Reading b)
             [Fetch (recognize_request (settings (plugin w)) b)] Fetching);
      try reflexivity; [exact Hs | constructor].
  - (* the recognition request settles *)
    destruct (runs w !! t) as [[b | | | o']|] eqn:Hs;
      try (apply (kind_host _ _ []); simpl; try reflexivity; symmetry; apply app_nil_r).
    unfold handleStop_transcribed.
    destruct (transcribeAudio_settled o) as [transcript | error].
    + simpl. destruct (cleanText (genAI (plugin w)) transcript) as [req | error].
      * apply (kind_advance _ _ t Fetching
                 [CallCleanText transcript; GenerateContent req] Generating);
          simpl; try reflexivity; try exact I; [exact Hs | | constructor].
        rewrite <- !app_assoc. reflexivity.
      * apply (kind_advance _ _ t Fetching
                 [CallCleanText transcript; failure_notice; ConsoleError None error;
                  ClearChunks] (Settled (CleanTextRejected error)));
          simpl; try reflexivity; try exact I; [exact Hs | | constructor].
        rewrite <- !app_assoc. reflexivity.
    + apply (kind_advance _ _ t Fetching
               [failure_notice; ConsoleError None error; ClearChunks]
               (Settled (TranscribeRejected error)));
        simpl; try reflexivity; try exact I; [exact Hs | | constructor].
      rewrite <- !app_assoc. reflexivity.
  - (* the generation request settles *)
    destruct (runs w !! t) as [[b | | | o']|] eqn:Hs;
      try (apply (kind_host _ _ []); simpl; try reflexivity; symmetry; apply app_nil_r).
    unfold handleStop_cleaned.
    destruct o as [e | cleaned]; simpl.
    + apply (kind_advance _ _ t Generating
               [failure_notice; ConsoleError None (JS.ThrownError e); ClearChunks]
               (Settled (CleanTextRejected (JS.ThrownError e))));
        simpl; try reflexivity; try exact I; [exact Hs | | constructor].
      rewrite <- !app_assoc. reflexivity.
    + destruct (activeEditor w) eqn:Hed.
      * apply (kind_advance _ _ t Generating
                 [ReplaceSelection cleaned; ClearChunks]
                 (Settled (Completed cleaned true)));
          simpl; try reflexivity; try exact I; [exact Hs | | constructor].
        rewrite <- !app_assoc. reflexivity.
      * apply (kind_advance _ _ t Generating [ClearChunks]
                 (Settled (Completed cleaned false)));
          simpl; try reflexivity; try exact I; [exact Hs | constructor].
  - (* a setting is edited *)
    destruct f;
      match goal with
      | |- step_kind _ (onChange _ _ _) =>
          eapply (kind_host _ _ [SaveData _]); reflexivity
      end.
  - (* the active view changes *)
    apply (kind_host _ _ []); simpl; try reflexivity. symmetry; apply app_nil_r.
Qed.

(** *** Traces *)

Lemma trace_app (t : nat) (w w' : World) (entries : list (Origin * Action)) :
  log w' = log w ++ entries ->
  trace t w' = trace t w ++ map snd (List.filter (by_run t) entries).
Proof.
  unfold trace. intros ->. rewrite List.filter_app, map_app. reflexivity.
Qed.

Lemma by_run_host (t : nat) (acts : list Action) :
  List.filter (by_run t) (map (pair Host) acts) = [].
Proof. induction acts as [|a acts IH]; simpl; [reflexivity | exact IH]. Qed.

Lemma by_run_same (t : nat) (acts : list Action) :
  map snd (List.filter (by_run t) (map (pair (Run t)) acts)) = acts.
Proof.
  induction acts as [|a acts IH]; simpl; [reflexivity |].
  unfold by_run at 1; simpl. rewrite Nat.eqb_refl. simpl. now rewrite IH.
Qed.

Lemma by_run_other (t t' : nat) (acts : list Action) :
  t <> t' -> List.filter (by_run t) (map (pair (Run t')) acts) = [].
Proof.
  intros Hne. induction acts as [|a acts IH]; simpl; [reflexivity |].
  unfold by_run at 1; simpl.
  destruct (Nat.eqb_spec t t') as [Heq | _]; [contradiction | exact IH].
Qed.

Lemma trace_at_advances (s s' : Stage) (tr acts : list Action) :
  trace_at s tr -> advances s acts s' -> trace_at s' (tr ++ acts).
Proof.
  intros Htr Hadv. inversion Hadv; subst; inversion Htr; subst; simpl; constructor.
Qed.

Lemma traces_ok_onload (d : StoredData) : traces_ok (onload d).
Proof.
  split.
  - intros t s Hs. discriminate Hs.
  - intros t _. reflexivity.
Qed.

Lemma traces_ok_kind (w w' : World) : traces_ok w -> step_kind w w' -> traces_ok w'.
Proof.
  intros [Hat Hnone] [acts Hruns Hlog _ | b Hruns Hlog | t0 s acts s' Hs Hruns Hlog Hadv _ _ _].
  - (* the host's own: no trace changes *)
    assert (Hsame : forall t, trace t w' = trace t w).
    { intros t. rewrite (trace_app t w w' _ Hlog), by_run_host. apply app_nil_r. }
    split.
    + intros t s Hs. rewrite Hsame. apply Hat. now rewrite <- Hruns.
    + intros t Hle. rewrite Hsame. apply Hnone. now rewrite <- Hruns.
  - (* a run starts *)
    split.
    + intros t s Hs. rewrite Hruns in Hs.
      rewrite (trace_app t w w' _ Hlog).
      apply lookup_app_Some in Hs as [Hs | [Hle Hs]].
      * assert (t <> length (runs w)) as Hne.
        { apply lookup_lt_Some in Hs. lia. }
        change [(Run (length (runs w)), ReadAsDataURL b)]
          with (map (pair (Run (length (runs w)))) [ReadAsDataURL b]).
        rewrite (by_run_other _ _ _ Hne). simpl. rewrite app_nil_r. now apply Hat.
      * destruct (t - length (runs w)) as [|k] eqn:Hk; [|destruct k; discriminate Hs].
        assert (t = length (runs w)) as -> by lia.
        injection Hs as <-.
        change [(Run (length (runs w)), ReadAsDataURL b)]
          with (map (pair (Run (length (runs w)))) [ReadAsDataURL b]).
        rewrite by_run_same, (Hnone (length (runs w))) by lia. constructor.
    + intros t Hle. rewrite Hruns, length_app in Hle. simpl in Hle.
      rewrite (trace_app t w w' _ Hlog).
      change [(Run (length (runs w)), ReadAsDataURL b)]
        with (map (pair (Run (length (runs w)))) [ReadAsDataURL b]).
      rewrite by_run_other by lia. simpl. rewrite app_nil_r. apply Hnone. lia.
  - (* a run is resumed *)
    pose proof (lookup_lt_Some _ _ _ Hs) as Hlt.
    split.
    + intros t s1 Hs1. rewrite Hruns in Hs1.
      rewrite (trace_app t w w' _ Hlog).
      destruct (Nat.eq_dec t t0) as [-> | Hne].
      * rewrite list_lookup_insert_eq in Hs1 by exact Hlt. injection Hs1 as <-.
        rewrite by_run_same. eapply trace_at_advances; [apply Hat, Hs | exact Hadv].
      * rewrite list_lookup_insert_ne in Hs1 by congruence.
        rewrite by_run_other by exact Hne. simpl. rewrite app_nil_r. now apply Hat.
    + intros t Hle. rewrite Hruns, length_insert in Hle.
      rewrite (trace_app t w w' _ Hlog), by_run_other by lia.
      simpl. rewrite app_nil_r. now apply Hnone.
Qed.

Lemma traces_ok_run (d : StoredData) (events : list Event) :
  traces_ok (run events (onload d)).
Proof.
  apply run_invariant; [| apply traces_ok_onload].
  intros e w Hw. eapply traces_ok_kind; [exact Hw | apply step_classified].
Qed.

Lemma host_ok_kind (w w' : World) : host_ok w -> step_kind w w' -> host_ok w'.
Proof.
  intros Hw [acts _ Hlog Hacts | b _ Hlog | t0 s acts s' _ _ Hlog _ _ _ _] a Hin;
    rewrite Hlog in Hin; apply in_app_or in Hin as [Hin | Hin];
    try (now apply Hw).
  - apply in_map_iff in Hin as [a' [Heq Hin]]. injection Heq as ->.
    rewrite forallb_forall in Hacts. specialize (Hacts a Hin).
    now apply negb_true_iff in Hacts.
  - destruct Hin as [Heq | []]. discriminate Heq.
  - apply in_map_iff in Hin as [a' [Heq _]]. discriminate Heq.
Qed.

Lemma host_ok_run (d : StoredData) (events : list Event) :
  host_ok (run events (onload d)).
Proof.
  apply run_invariant.
  - intros e w Hw. eapply host_ok_kind; [exact Hw | apply step_classified].
  - intros a [Heq | [Heq | []]]; injection Heq as <-; reflexivity.
Qed.

(** *** What a callback leaves alone *)

Lemma genAI_step (e : Event) (w : World) :
  genAI (plugin (step e w)) = genAI (plugin w).
Proof.
  destruct e; simpl;
    unfold toggleRecording, stopRecording, startRecording, startRecording_granted,
      startRecording_denied, ondataavailable, handleStop, transcribeAudio_onloadend,
      handleStop_transcribed, handleStop_cleaned, onChange;
    split_cases; reflexivity.
Qed.

Lemma genAI_run (events : list Event) (w : World) :
  genAI (plugin (run events w)) = genAI (plugin w).
Proof.
  revert w. induction events as [|e rest IH]; intros w; simpl; [reflexivity |].
  rewrite IH. apply genAI_step.
Qed.

Lemma genAI_onload (d : StoredData) :
  genAI (plugin (onload d)) =
  if String.eqb (geminiApiKey (loadSettings d)) ""
  then None else Some {| apiKey := geminiApiKey (loadSettings d) |}.
Proof.
  unfold onload. simpl.
  match goal with |- context [String.eqb ?k ""] => destruct (String.eqb k "") end;
    reflexivity.
Qed.

(** A run that has settled stays as it is. *)
Lemma settled_step (e : Event) (w : World) (t : nat) (o : Outcome) :
  runs w !! t = Some (Settled o) -> runs (step e w) !! t = Some (Settled o).
Proof.
  intros Hs.
  destruct (step_classified e w)
    as [acts Hruns _ _ | b Hruns _ | t0 s acts s' Hs0 Hruns _ Hadv _ _ _];
    rewrite Hruns.
  - exact Hs.
  - now apply lookup_app_l_Some.
  - destruct (Nat.eq_dec t0 t) as [-> | Hne].
    + rewrite Hs in Hs0. injection Hs0 as <-. inversion Hadv.
    + now rewrite list_lookup_insert_ne.
Qed.

Lemma settled_run (events : list Event) (w : World) (t : nat) (o : Outcome) :
  runs w !! t = Some (Settled o) -> runs (run events w) !! t = Some (Settled o).
Proof.
  revert w. induction events as [|e rest IH]; intros w Hs; simpl; [exact Hs |].
  apply IH, settled_step, Hs.
Qed.

(** The step at which a run settles. *)
Lemma settling_step (e : Event) (w : World) (t : nat) (s : Stage) (o : Outcome) :
  runs w !! t = Some s -> in_flight s = true ->
  runs (step e w) !! t = Some (Settled o) ->
  audioChunks (plugin (step e w)) = [] /\
  isRecording (plugin (step e w)) = isRecording (plugin w) /\
  recorders (step e w) = recorders w /\
  runs (step e w) = <[t := Settled o]> (runs w).
Proof.
  intros Hs Hfl Hs'.
  destruct (step_classified e w)
    as [acts Hruns _ _ | b Hruns _ | t0 s0 acts s' Hs0 Hruns _ _ Hrec Hflag Hclear];
    rewrite Hruns in Hs'.
  - rewrite Hs in Hs'. injection Hs' as ->. discriminate Hfl.
  - rewrite (lookup_app_l_Some _ _ _ _ Hs) in Hs'. injection Hs' as ->. discriminate Hfl.
  - destruct (Nat.eq_dec t0 t) as [-> | Hne].
    + rewrite list_lookup_insert_eq in Hs' by (eapply lookup_lt_Some; exact Hs).
      injection Hs' as ->. rewrite Hruns. auto.
    + rewrite list_lookup_insert_ne in Hs' by exact Hne.
      rewrite Hs in Hs'. injection Hs' as ->. discriminate Hfl.
Qed.

Lemma clear_count (s : Stage) (tr : list Action) :
  trace_at s tr -> count is_clear tr = if in_flight s then 0 else 1.
Proof. intros H. inversion H; reflexivity. Qed.

(** What the trace of a stage holds of refinement and of delivery. *)
Lemma outcome_counts (s : Stage) (tr : list Action) :
  trace_at s tr ->
  match s with
  | Settled (TranscribeRejected _) =>
      count is_refinement tr = 0 /\ count is_delivery tr = 0
  | Settled (Completed cleaned delivered) =>
      List.filter is_delivery tr = if delivered then [ReplaceSelection cleaned] else []
  | _ => count is_delivery tr = 0
  end.
Proof. intros H. inversion H; subst; simpl; auto. Qed.

Lemma none_in_flight_after (l : list Stage) (t : nat) (o : Outcome) :
  (forall t' s', l !! t' = Some s' -> in_flight s' = true -> t' = t) ->
  existsb in_flight (<[t := Settled o]> l) = false.
Proof.
  intros Hsole. apply not_true_is_false. intros Hex.
  apply existsb_exists in Hex as [s [Hin Hfl]].
  apply list_elem_of_In, list_elem_of_lookup in Hin as [i Hi].
  destruct (Nat.eq_dec t i) as [-> | Hne].
  - pose proof (lookup_lt_Some _ _ _ Hi) as Hlt. rewrite length_insert in Hlt.
    rewrite list_lookup_insert_eq in Hi by exact Hlt.
    injection Hi as <-. discriminate Hfl.
  - rewrite list_lookup_insert_ne in Hi by exact Hne.
    apply Hne. symmetry. eapply Hsole; eassumption.
Qed.

Lemma in_flight_elsewhere (l : list Stage) (t : nat) (o : Outcome) :
  existsb in_flight (<[t := Settled o]> l) = false ->
  forall t' s', l !! t' = Some s' -> in_flight s' = true -> t' = t.
Proof.
  intros Hnone t' s' Hi Hfl.
  destruct (Nat.eq_dec t' t) as [Heq | Hne]; [exact Heq | exfalso].
  assert (Hex : existsb in_flight (<[t := Settled o]> l) = true).
  { apply existsb_exists. exists s'. split; [| exact Hfl].
    apply list_elem_of_In, list_elem_of_lookup. exists t'.
    rewrite list_lookup_insert_ne by congruence. exact Hi. }
  congruence.
Qed.

(** A callback that does not resume a run leaves its stage as it is. *)
Lemma stage_kept (e : Event) (w : World) (t : nat) (s : Stage) :
  elsewhere t e = true -> runs w !! t = Some s -> runs (step e w) !! t = Some s.
Proof.
  intros He Hs.
  destruct e as [ | | err | r data | r | t' | t' o | t' o | f value | markdown ];
    simpl in He; try apply negb_true_iff, Nat.eqb_neq in He; simpl;
    unfold toggleRecording, stopRecording, startRecording, startRecording_denied,
      ondataavailable, handleStop, transcribeAudio_onloadend,
      handleStop_transcribed, handleStop_cleaned, onChange;
    split_cases; simpl;
    first [ exact Hs
          | now apply lookup_app_l_Some
          | rewrite list_lookup_insert_ne by congruence; exact Hs ].
Qed.

Lemma stage_kept_run (events : list Event) (w : World) (t : nat) (s : Stage) :
  forallb (elsewhere t) events = true ->
  runs w !! t = Some s -> runs (run events w) !! t = Some s.
Proof.
  revert w. induction events as [|e rest IH]; intros w Hall Hs; [exact Hs |].
  simpl in Hall. apply andb_true_iff in Hall as [He Hrest].
  simpl. apply IH; [exact Hrest | now apply stage_kept].
Qed.

(** *** The two resumptions that can settle a run *)

Lemma gained_app (w w' : World) (entries : list (Origin * Action)) :
  log w' = log w ++ entries -> gained w w' = map snd entries.
Proof. unfold gained. intros ->. now rewrite drop_app_length. Qed.

Lemma loaded_stage (w : World) (t : nat) (b : Blob) :
  runs w !! t = Some (Reading b) ->
  runs (step (ReaderLoadEnd t) w) !! t = Some Fetching /\
  gained w (step (ReaderLoadEnd t) w) = [Fetch (recognize_request (settings (plugin w)) b)].
Proof.
  intros Hs. simpl. rewrite Hs. split.
  - simpl. apply list_lookup_insert_eq. eapply lookup_lt_Some; exact Hs.
  - now apply (gained_app _ _ [(Run t, _)]).
Qed.

Lemma transcribed_runs (w : World) (t : nat) (o : FetchOutcome) :
  runs w !! t = Some Fetching ->
  runs (step (FetchSettled t o) w) !! t = Some (transcribed_stage w o).
Proof.
  intros Hs. pose proof (lookup_lt_Some _ _ _ Hs) as Hlt.
  simpl. rewrite Hs. unfold handleStop_transcribed, transcribed_stage.
  destruct (transcribeAudio_settled o) as [transcript | err]; simpl.
  - destruct (cleanText (genAI (plugin w)) transcript); simpl;
      now apply list_lookup_insert_eq.
  - now apply list_lookup_insert_eq.
Qed.

Lemma cleaned_runs (w : World) (t : nat) (o : GenerateOutcome) :
  runs w !! t = Some Generating ->
  runs (step (GenerateSettled t o) w) !! t =
  Some (Settled match o with
                | GenerateFailed e => CleanTextRejected (JS.ThrownError e)
                | GenerateText cleaned => Completed cleaned (activeEditor w)
                end).
Proof.
  intros Hs. pose proof (lookup_lt_Some _ _ _ Hs) as Hlt.
  simpl. rewrite Hs. unfold handleStop_cleaned.
  destruct o as [e | cleaned]; simpl.
  - now apply list_lookup_insert_eq.
  - destruct (activeEditor w); simpl; now apply list_lookup_insert_eq.
Qed.

(** Whatever the two services answer, and whatever else happens in
    between, a run settles: it cannot stay suspended once the host has
    answered. *)
Lemma every_run_settles (w : World) (t : nat) (b : Blob)
  (o1 : FetchOutcome) (o2 : GenerateOutcome) (mid1 mid2 : list Event) :
  runs w !! t = Some (Reading b) ->
  forallb (elsewhere t) mid1 = true ->
  forallb (elsewhere t) mid2 = true ->
  exists o,
    runs (run (ReaderLoadEnd t :: mid1 ++ FetchSettled t o1 :: mid2
               ++ [GenerateSettled t o2]) w) !! t
    = Some (Settled o).
Proof.
  intros Hs Hmid1 Hmid2.
  change (ReaderLoadEnd t :: mid1 ++ FetchSettled t o1 :: mid2 ++ [GenerateSettled t o2])
    with ([ReaderLoadEnd t] ++ mid1 ++ [FetchSettled t o1] ++ mid2
          ++ [GenerateSettled t o2]).
  rewrite !run_app.
  destruct (loaded_stage w t b Hs) as [H1 _].
  change (run [ReaderLoadEnd t] w) with (step (ReaderLoadEnd t) w).
  pose proof (stage_kept_run mid1 _ t _ Hmid1 H1) as H1'.
  set (w1 := run mid1 (step (ReaderLoadEnd t) w)) in *.
  pose proof (transcribed_runs w1 t o1 H1') as H2.
  change (run [FetchSettled t o1] w1) with (step (FetchSettled t o1) w1).
  set (w2 := step (FetchSettled t o1) w1) in *.
  destruct (transcribed_stage w1 o1) as [ | | | o] eqn:Hst.
  - unfold transcribed_stage in Hst.
    repeat match type of Hst with
           | context [match ?x with _ => _ end] => destruct x
           end; discriminate Hst.
  - unfold transcribed_stage in Hst.
    repeat match type of Hst with
           | context [match ?x with _ => _ end] => destruct x
           end; discriminate Hst.
  - pose proof (stage_kept_run mid2 _ t _ Hmid2 H2) as H2'.
    eexists. change (run [GenerateSettled t o2] (run mid2 w2))
      with (step (GenerateSettled t o2) (run mid2 w2)).
    apply cleaned_runs, H2'.
  - exists o. apply settled_run, settled_run, H2.
Qed.

(** *** The claims about cleanup and about failures *)

(** C2, as the code has it. Every invocation of the pipeline settles,
    whatever the reader and the two services answer and whatever else
    happens in between, and it clears the captured segments exactly once:
    its trace holds no clearing before and exactly one at any time after.
    The clearing is at the step at which the run settles, and the buffer
    is empty then, whichever recording its segments belong to.  After that
    step the machine is [Idle] exactly when the flag was down, no recorder
    had yet to confirm its stop and no other run was in flight; otherwise
    it stays [Recording] or [Processing]. *)
Theorem C2_buffer_cleared_once_then_idle
  (d : StoredData) (events mid1 mid2 : list Event) (t : nat) (b : Blob)
  (o1 : FetchOutcome) (o2 : GenerateOutcome) :
  runs (run events (onload d)) !! t = Some (Reading b) ->
  forallb (elsewhere t) mid1 = true ->
  forallb (elsewhere t) mid2 = true ->
  (exists o,
      runs (run (ReaderLoadEnd t :: mid1 ++ FetchSettled t o1 :: mid2
                 ++ [GenerateSettled t o2])
              (run events (onload d))) !! t = Some (Settled o)) /\
  count is_clear (trace t (run events (onload d))) = 0 /\
  (forall later,
      count is_clear
        (trace t (run later
                    (run (ReaderLoadEnd t :: mid1 ++ FetchSettled t o1 :: mid2
                          ++ [GenerateSettled t o2])
                       (run events (onload d))))) = 1) /\
  (forall further e s o,
      runs (run further (run events (onload d))) !! t = Some s ->
      in_flight s = true ->
      runs (step e (run further (run events (onload d)))) !! t = Some (Settled o) ->
      audioChunks (plugin (step e (run further (run events (onload d))))) = [] /\
      count is_clear (trace t (run further (run events (onload d)))) = 0 /\
      count is_clear (trace t (step e (run further (run events (onload d))))) = 1 /\
      (machine_state (step e (run further (run events (onload d)))) = Idle <->
       isRecording (plugin (run further (run events (onload d)))) = false /\
       existsb stopping (recorders (run further (run events (onload d)))) = false /\
       (forall t' s',
           runs (run further (run events (onload d))) !! t' = Some s' ->
           in_flight s' = true -> t' = t))).
Proof.
  intros Hs Hmid1 Hmid2.
  destruct (every_run_settles (run events (onload d)) t b o1 o2 mid1 mid2 Hs Hmid1 Hmid2)
    as [o Ho].
  split; [exists o; exact Ho |]. split; [| split].
  - destruct (traces_ok_run d events) as [Hat _].
    rewrite (clear_count _ _ (Hat t _ Hs)). reflexivity.
  - intros later.
    destruct (traces_ok_run d
                ((events ++ (ReaderLoadEnd t :: mid1 ++ FetchSettled t o1 :: mid2
                             ++ [GenerateSettled t o2])) ++ later))
      as [Hat _].
    rewrite !run_app in Hat.
    pose proof (settled_run later _ t o Ho) as Hstill.
    rewrite (clear_count _ _ (Hat t _ Hstill)). reflexivity.
  - intros further e s o' Hin Hfl Hsettled.
    destruct (traces_ok_run d (events ++ further)) as [Hbefore _].
    destruct (traces_ok_run d ((events ++ further) ++ [e])) as [Hafter _].
    rewrite (run_app (events ++ further) [e]) in Hafter.
    rewrite (run_app events further) in Hbefore, Hafter.
    rewrite run_cons, run_nil in Hafter.
    set (w := run further (run events (onload d))) in *.
    destruct (settling_step e w t s o' Hin Hfl Hsettled) as (Hchunks & Hflag & Hrec & Hruns).
    split; [exact Hchunks |]. split; [| split].
    + rewrite (clear_count _ _ (Hbefore t _ Hin)), Hfl. reflexivity.
    + rewrite (clear_count _ _ (Hafter t _ Hsettled)). reflexivity.
    + unfold machine_state. rewrite Hflag, Hrec, Hruns. split.
      * destruct (isRecording (plugin w)); [discriminate |].
        destruct (existsb stopping (recorders w)); [discriminate |].
        destruct (existsb in_flight (<[t := Settled o']> (runs w))) eqn:Hnone;
          [discriminate |].
        intros _. split; [reflexivity |]. split; [reflexivity |].
        exact (in_flight_elsewhere _ _ _ Hnone).
      * intros (-> & -> & Hsole).
        now rewrite (none_in_flight_after _ t o' Hsole).
Qed.

(** C5. When transcription fails, the run ends without [cleanText] having
    been called, without a request to the generative service and without a
    delivery; when refinement fails, by throwing at once or by a rejected
    request, the run ends without a delivery, so the raw transcript is
    never handed to the editor.  Nothing outside the runs delivers text. *)
Theorem C5_failure_aborts_the_rest
  (d : StoredData) (events later : list Event) (t : nat) (o : FetchOutcome) :
  runs (run events (onload d)) !! t = Some Fetching ->
  (forall err,
      transcribeAudio_settled o = JS.Abrupt err ->
      runs (run later (step (FetchSettled t o) (run events (onload d)))) !! t
      = Some (Settled (TranscribeRejected err)) /\
      count is_refinement
        (trace t (run later (step (FetchSettled t o) (run events (onload d))))) = 0 /\
      count is_delivery
        (trace t (run later (step (FetchSettled t o) (run events (onload d))))) = 0) /\
  (forall transcript err,
      transcribeAudio_settled o = JS.Normal transcript ->
      cleanText (genAI (plugin (run events (onload d)))) transcript = JS.Abrupt err ->
      runs (run later (step (FetchSettled t o) (run events (onload d)))) !! t
      = Some (Settled (CleanTextRejected err))) /\
  (forall e,
      runs (step (FetchSettled t o) (run events (onload d))) !! t = Some Generating ->
      runs (step (GenerateSettled t (GenerateFailed e))
              (step (FetchSettled t o) (run events (onload d)))) !! t
      = Some (Settled (CleanTextRejected (JS.ThrownError e)))) /\
  (forall err,
      runs (run later (step (FetchSettled t o) (run events (onload d)))) !! t
      = Some (Settled (CleanTextRejected err)) ->
      count is_delivery
        (trace t (run later (step (FetchSettled t o) (run events (onload d))))) = 0) /\
  (forall a,
      In (Host, a) (log (run later (step (FetchSettled t o) (run events (onload d))))) ->
      is_refinement a = false /\ is_delivery a = false).
Proof.
  set (w := run events (onload d)). intros Hs.
  assert (Hreach : run later (step (FetchSettled t o) w)
                   = run ((events ++ [FetchSettled t o]) ++ later) (onload d)).
  { rewrite !run_app. reflexivity. }
  destruct (traces_ok_run d ((events ++ [FetchSettled t o]) ++ later)) as [Hat _].
  rewrite <- Hreach in Hat.
  pose proof (transcribed_runs w t o Hs) as Hstage.
  pose proof (host_ok_run d ((events ++ [FetchSettled t o]) ++ later)) as Hhost.
  rewrite <- Hreach in Hhost.
  split; [| split; [| split; [| split]]].
  - intros err Herr.
    assert (Hend : runs (run later (step (FetchSettled t o) w)) !! t
                   = Some (Settled (TranscribeRejected err))).
    { apply settled_run. rewrite Hstage. unfold transcribed_stage. now rewrite Herr. }
    split; [exact Hend |]. exact (outcome_counts _ _ (Hat t _ Hend)).
  - intros transcript err Htr Hclean. apply settled_run.
    rewrite Hstage. unfold transcribed_stage. now rewrite Htr, Hclean.
  - intros e Hgen. apply (cleaned_runs _ t (GenerateFailed e) Hgen).
  - intros err Hend. exact (outcome_counts _ _ (Hat t _ Hend)).
  - intros a Hin. specialize (Hhost a Hin).
    destruct a; split; try reflexivity; discriminate Hhost.
Qed.

(** *** The claims about refinement and delivery *)

Lemma template_throws (v : JS.Val) (err : JS.Thrown) :
  JS.template to_string v = JS.Abrupt err -> err = JS.cannot_convert.
Proof.
  destruct v as [ | | [|] | z | s | items | fields]; simpl; try discriminate;
    destruct (to_string _); try discriminate; now intros [= <-].
Qed.

Lemma transcribed_gained (w : World) (t : nat) (o : FetchOutcome) :
  runs w !! t = Some Fetching ->
  gained w (step (FetchSettled t o) w) =
  match transcribeAudio_settled o with
  | JS.Abrupt err => [failure_notice; ConsoleError None err; ClearChunks]
  | JS.Normal transcript =>
      CallCleanText transcript ::
      match cleanText (genAI (plugin w)) transcript with
      | JS.Normal req => [GenerateContent req]
      | JS.Abrupt err => [failure_notice; ConsoleError None err; ClearChunks]
      end
  end.
Proof.
  intros Hs. simpl. rewrite Hs. unfold handleStop_transcribed.
  destruct (transcribeAudio_settled o) as [transcript | err]; simpl.
  - destruct (cleanText (genAI (plugin w)) transcript) as [req | err]; simpl.
    + apply (gained_app _ _ [(Run t, _); (Run t, _)]). simpl.
      now rewrite <- !app_assoc.
    + apply (gained_app _ _ [(Run t, _); (Run t, _); (Run t, _); (Run t, _)]). simpl.
      now rewrite <- !app_assoc.
  - apply (gained_app _ _ [(Run t, _); (Run t, _); (Run t, _)]). simpl.
    now rewrite <- !app_assoc.
Qed.

Lemma cleaned_gained (w : World) (t : nat) (cleaned : string) :
  runs w !! t = Some Generating ->
  gained w (step (GenerateSettled t (GenerateText cleaned)) w) =
  if activeEditor w then [ReplaceSelection cleaned; ClearChunks] else [ClearChunks].
Proof.
  intros Hs. simpl. rewrite Hs. unfold handleStop_cleaned. simpl.
  destruct (activeEditor w); simpl.
  - apply (gained_app _ _ [(Run t, _); (Run t, _)]). simpl. now rewrite <- !app_assoc.
  - now apply (gained_app _ _ [(Run t, _)]).
Qed.

Lemma substring_appended (a b : string) :
  substring (String.length a) (String.length b) (a ++ b) = b.
Proof.
  induction a as [|c a IH]; simpl; [| exact IH].
  induction b as [|c b IH]; simpl; [reflexivity |]. now rewrite IH.
Qed.

Lemma length_appended (a b : string) :
  String.length (a ++ b) = String.length a + String.length b.
Proof. induction a as [|c a IH]; simpl; [reflexivity | now rewrite IH]. Qed.

Lemma prefix_appended (a b : string) : String.prefix a (a ++ b) = true.
Proof.
  induction a as [|c a IH]; simpl.
  - now destruct b.
  - destruct (ascii_dec c c) as [_ | Hne]; [exact IH | now destruct Hne].
Qed.

(** C10. The handle [genAI] is what [onload] made of the credential it
    found: set when that credential was not empty, unset otherwise.  No
    callback changes it, an edit of the credential in the settings tab
    included, although the edit changes the setting.  So [cleanText] throws
    its not-initialized error exactly when the credential was empty at
    load. *)
Theorem C10_genAI_fixed_at_load (d : StoredData) (events : list Event) :
  genAI (plugin (run events (onload d))) =
    (if String.eqb (geminiApiKey (loadSettings d)) "" then None
     else Some {| apiKey := geminiApiKey (loadSettings d) |}) /\
  (forall value,
      geminiApiKey
        (settings (plugin (step (SettingChanged GeminiApiKey value)
                             (run events (onload d))))) = value /\
      genAI (plugin (step (SettingChanged GeminiApiKey value) (run events (onload d))))
      = genAI (plugin (run events (onload d)))) /\
  (forall text,
      cleanText (genAI (plugin (run events (onload d)))) text = JS.Abrupt not_initialized
      <-> geminiApiKey (loadSettings d) = "").
Proof.
  assert (Hg : genAI (plugin (run events (onload d))) =
               if String.eqb (geminiApiKey (loadSettings d)) "" then None
               else Some {| apiKey := geminiApiKey (loadSettings d) |}).
  { rewrite genAI_run. apply genAI_onload. }
  split; [exact Hg |]. split.
  - intros value. split; reflexivity.
  - intros text. rewrite Hg.
    destruct (String.eqb_spec (geminiApiKey (loadSettings d)) "") as [Hempty | Hset].
    + split; [intros _; exact Hempty | reflexivity].
    + split; [| contradiction].
      unfold cleanText.
      destruct (JS.template to_string text) as [shown | err] eqn:Htemplate; simpl.
      * discriminate.
      * apply template_throws in Htemplate as ->. discriminate.
Qed.

(** C8, as the code has it. When refinement succeeds with a text, that text is handed
    to the editor exactly once if a Markdown editor is active at that
    moment, and not at all if none is; either way the run completes without
    a failure notice. *)
Theorem C8_delivery_needs_an_editor
  (d : StoredData) (events later : list Event) (t : nat) (cleaned : string) :
  runs (run events (onload d)) !! t = Some Generating ->
  runs (step (GenerateSettled t (GenerateText cleaned)) (run events (onload d))) !! t
  = Some (Settled (Completed cleaned (activeEditor (run events (onload d))))) /\
  gained (run events (onload d))
    (step (GenerateSettled t (GenerateText cleaned)) (run events (onload d)))
  = (if activeEditor (run events (onload d))
     then [ReplaceSelection cleaned; ClearChunks] else [ClearChunks]) /\
  List.filter is_delivery
    (trace t (run later (step (GenerateSettled t (GenerateText cleaned))
                           (run events (onload d)))))
  = (if activeEditor (run events (onload d)) then [ReplaceSelection cleaned] else []).
Proof.
  set (w := run events (onload d)). intros Hs.
  pose proof (cleaned_runs w t (GenerateText cleaned) Hs) as Hend.
  split; [exact Hend |]. split; [now apply cleaned_gained |].
  assert (Hreach : run later (step (GenerateSettled t (GenerateText cleaned)) w)
                   = run ((events ++ [GenerateSettled t (GenerateText cleaned)]) ++ later)
                       (onload d)).
  { rewrite !run_app. reflexivity. }
  destruct (traces_ok_run d ((events ++ [GenerateSettled t (GenerateText cleaned)]) ++ later))
    as [Hat _].
  rewrite <- Hreach in Hat.
  exact (outcome_counts _ _ (Hat t _ (settled_run later _ t _ Hend))).
Qed.

(** C9. For a transcript that is a string, the request that [cleanText]
    sends carries the fixed instruction followed by that string, unchanged;
    and the text of the completion is what [cleanText] returns and what the
    run completes with, unchanged. *)
Theorem C9_prompt_and_completion_verbatim
  (d : StoredData) (events : list Event) (t : nat) (o : FetchOutcome)
  (client : GoogleGenerativeAI) (text completion : string) :
  runs (run events (onload d)) !! t = Some Fetching ->
  transcribeAudio_settled o = JS.Normal (JS.Str text) ->
  genAI (plugin (run events (onload d))) = Some client ->
  gained (run events (onload d)) (step (FetchSettled t o) (run events (onload d)))
  = [CallCleanText (JS.Str text);
     GenerateContent {| gen_client := client; gen_model := "gemini-pro";
                        gen_prompt := instruction ++ text |}] /\
  String.prefix instruction (instruction ++ text) = true /\
  substring (String.length instruction) (String.length text) (instruction ++ text) = text /\
  String.length (instruction ++ text) = String.length instruction + String.length text /\
  cleanText_settled (GenerateText completion) = JS.Normal completion /\
  runs (step (GenerateSettled t (GenerateText completion))
          (step (FetchSettled t o) (run events (onload d)))) !! t
  = Some (Settled (Completed completion
                     (activeEditor (step (FetchSettled t o) (run events (onload d)))))).
Proof.
  set (w := run events (onload d)). intros Hs Htr Hg.
  pose proof (transcribed_gained w t o Hs) as Hgained.
  pose proof (transcribed_runs w t o Hs) as Hstage.
  unfold transcribed_stage in Hstage.
  rewrite Htr, Hg in Hgained, Hstage. simpl in Hgained, Hstage.
  split; [exact Hgained |]. split; [apply prefix_appended |].
  split; [apply substring_appended |]. split; [apply length_appended |].
  split; [reflexivity |].
  apply (cleaned_runs _ t (GenerateText completion) Hstage).
Qed.

(** C7, as the code has it. Whether [cleanText] proceeds is decided by the credential
    that [onload] found, whatever the setting holds by now.  If it was
    empty, [cleanText] throws its not-initialized error at once and no
    request is sent; if it was not, the request is sent, with the client
    made from that credential. *)
Theorem C7_refine_gated_by_credential_at_load
  (d : StoredData) (events : list Event) (t : nat) (o : FetchOutcome) (text : string) :
  runs (run events (onload d)) !! t = Some Fetching ->
  transcribeAudio_settled o = JS.Normal (JS.Str text) ->
  (geminiApiKey (loadSettings d) = "" ->
   runs (step (FetchSettled t o) (run events (onload d))) !! t
   = Some (Settled (CleanTextRejected not_initialized)) /\
   count is_request
     (gained (run events (onload d)) (step (FetchSettled t o) (run events (onload d)))) = 0)
  /\
  (geminiApiKey (loadSettings d) <> "" ->
   runs (step (FetchSettled t o) (run events (onload d))) !! t = Some Generating /\
   gained (run events (onload d)) (step (FetchSettled t o) (run events (onload d)))
   = [CallCleanText (JS.Str text);
      GenerateContent {| gen_client := {| apiKey := geminiApiKey (loadSettings d) |};
                         gen_model := "gemini-pro";
                         gen_prompt := instruction ++ text |}]).
Proof.
  set (w := run events (onload d)). intros Hs Htr.
  pose proof (transcribed_gained w t o Hs) as Hgained.
  pose proof (transcribed_runs w t o Hs) as Hstage.
  unfold transcribed_stage in Hstage.
  assert (Hg : genAI (plugin w) =
               if String.eqb (geminiApiKey (loadSettings d)) "" then None
               else Some {| apiKey := geminiApiKey (loadSettings d) |}).
  { unfold w. rewrite genAI_run. apply genAI_onload. }
  rewrite Htr, Hg in Hgained, Hstage.
  destruct (String.eqb_spec (geminiApiKey (loadSettings d)) "") as [Hempty | Hset];
    cbv beta iota delta [cleanText JS.template mbind completion_bind JS.bind]
      in Hgained, Hstage.
  - split; [intros _ | contradiction]. split; [exact Hstage |]. now rewrite Hgained.
  - split; [contradiction | intros _]. split; [exact Hstage | exact Hgained].
Qed.

(** *** The audio content of the recognition request *)

Lemma get_in (s : string) (k : nat) (c : ascii) :
  String.get k s = Some c -> In c (list_ascii_of_string s).
Proof.
  revert k. induction s as [|c' s IH]; intros k; simpl; [discriminate |].
  destruct k as [|k].
  - intros [= ->]. now left.
  - intros Hk. right. eapply IH, Hk.
Qed.

Lemma sextet_no_comma (n : N) : sextet n <> ","%char.
Proof.
  unfold sextet. destruct (String.get _ _) as [c|] eqn:Hc; [| discriminate].
  apply get_in in Hc. intros ->. simpl in Hc.
  repeat (destruct Hc as [Hc | Hc]; [discriminate Hc |]). exact Hc.
Qed.

Lemma base64_comma_free (bs : list byte) : comma_free (base64 bs).
Proof.
  assert (Hall : forall n l, length l <= n -> comma_free (base64 l)).
  { induction n as [|n IH]; intros l Hlen.
    - destruct l; [intros [] | simpl in Hlen; lia].
    - destruct l as [|a [|b [|c rest]]]; unfold comma_free; simpl; intros Hin;
        repeat (destruct Hin as [Hin | Hin];
                [first [ now apply sextet_no_comma in Hin | discriminate Hin ] |]);
        try contradiction.
      apply (IH rest); [simpl in Hlen; lia | exact Hin]. }
  now apply (Hall (length bs)).
Qed.

Lemma split_comma_free (s : string) : comma_free s -> split "," s = [s].
Proof.
  unfold comma_free. induction s as [|c s IH]; simpl; [reflexivity |].
  intros Hfree. destruct (Ascii.eqb_spec c ",") as [-> | _].
  - exfalso. apply Hfree. now left.
  - rewrite IH; [reflexivity |]. intros Hin. apply Hfree. now right.
Qed.

(** The content of the request is the base64 of the bytes of the blob that
    [handleStop] built. *)
Lemma recognize_request_content (s : STTAiEditorSettings) (parts : list Blob) :
  req_content (recognize_request s (new_Blob parts "audio/webm"))
  = Some (base64 (concat (map blob_bytes parts))).
Proof.
  unfold recognize_request, readAsDataURL, new_Blob. simpl req_content.
  rewrite split_comma_free by apply base64_comma_free. reflexivity.
Qed.

(** *** The flag and the recorder *)

Lemma length_stop_recorder (r : nat) (l : list RecorderState) :
  length (stop_recorder r l) = length l.
Proof.
  unfold stop_recorder. destruct (l !! r) as [[ | | ]|]; try reflexivity.
  apply length_insert.
Qed.

Lemma handle_ok_onload (d : StoredData) : handle_ok (onload d).
Proof.
  unfold handle_ok, onload. simpl. destruct (negb _); simpl; split; discriminate.
Qed.

Lemma handle_ok_step (e : Event) (w : World) : handle_ok w -> handle_ok (step e w).
Proof.
  unfold handle_ok.
  destruct e as [ | | err | r data | r | t | t o | t o | f value | markdown ]; simpl;
    unfold toggleRecording, stopRecording, startRecording, startRecording_denied,
      ondataavailable, transcribeAudio_onloadend,
      handleStop_transcribed, handleStop_cleaned, onChange;
    split_cases; simpl; intros [Hlt Hex];
    (split;
     [ intros handle Hhandle;
       rewrite ?length_stop_recorder, ?length_insert, ?length_app; simpl;
       first [ now apply Hlt | apply Hlt; congruence | injection Hhandle as <-; lia ]
     | intros Hflag;
       first [ now apply Hex
             | eexists; reflexivity
             | discriminate Hflag
             | destruct Hex as [held Hheld]; [congruence | exists held; congruence] ] ]).
Qed.

Lemma handle_ok_run (d : StoredData) (events : list Event) :
  handle_ok (run events (onload d)).
Proof. apply run_invariant; [apply handle_ok_step | apply handle_ok_onload]. Qed.

(** *** The claims about the toggle and about capture *)

(** C1, as the code has it. The toggle follows the flag [isRecording] and
    nothing else.  While the machine is [Recording] it routes to
    [stopRecording]: [stop()] is called on the recorder that is held (which
    stops if it is recording, and is left as it is if it has stopped on its
    own), the flag is lowered, and no capture is requested or started.  In
    every other state, [Processing] included, it routes to
    [startRecording]: the microphone is requested and, once it is granted,
    a new recorder is created and started. *)
Theorem C1_toggle_follows_the_flag (d : StoredData) (events : list Event) :
  match machine_state (run events (onload d)) with
  | Recording =>
      exists r,
        mediaRecorder (plugin (run events (onload d))) = Some r /\
        gained (run events (onload d)) (step RibbonClick (run events (onload d)))
        = [RecorderStop r; Notice "Recording stopped."] /\
        count is_capture
          (gained (run events (onload d)) (step RibbonClick (run events (onload d)))) = 0 /\
        recorders (step RibbonClick (run events (onload d)))
        = stop_recorder r (recorders (run events (onload d))) /\
        runs (step RibbonClick (run events (onload d))) = runs (run events (onload d)) /\
        isRecording (plugin (step RibbonClick (run events (onload d)))) = false /\
        micRequests (step RibbonClick (run events (onload d)))
        = micRequests (run events (onload d))
  | Idle | Processing =>
      gained (run events (onload d)) (step RibbonClick (run events (onload d)))
      = [GetUserMedia] /\
      micRequests (step RibbonClick (run events (onload d)))
      = S (micRequests (run events (onload d))) /\
      gained (step RibbonClick (run events (onload d)))
        (step MicGranted (step RibbonClick (run events (onload d))))
      = [NewMediaRecorder (length (recorders (run events (onload d))));
         RecorderStart (length (recorders (run events (onload d))));
         Notice "Recording started..."] /\
      recorders (step MicGranted (step RibbonClick (run events (onload d))))
      = recorders (run events (onload d)) ++ [RecRecording] /\
      isRecording (plugin (step MicGranted (step RibbonClick (run events (onload d)))))
      = true
  end.
Proof.
  destruct (handle_ok_run d events) as [_ Hheld].
  set (w := run events (onload d)) in *.
  assert (Hstart : isRecording (plugin w) = false ->
            gained w (step RibbonClick w) = [GetUserMedia] /\
            micRequests (step RibbonClick w) = S (micRequests w) /\
            gained (step RibbonClick w) (step MicGranted (step RibbonClick w))
            = [NewMediaRecorder (length (recorders w));
               RecorderStart (length (recorders w)); Notice "Recording started..."] /\
            recorders (step MicGranted (step RibbonClick w))
            = recorders w ++ [RecRecording] /\
            isRecording (plugin (step MicGranted (step RibbonClick w))) = true).
  { intros Hoff. simpl. unfold toggleRecording. rewrite Hoff. simpl.
    repeat split.
    - now apply (gained_app _ _ [(Host, _)]).
    - apply (gained_app _ _ [(Host, _); (Host, _); (Host, _)]). simpl.
      now rewrite <- !app_assoc. }
  unfold machine_state. destruct (isRecording (plugin w)) eqn:Hon.
  - destruct (Hheld eq_refl) as (r & Hhandle). exists r.
    simpl. unfold toggleRecording, stopRecording. rewrite Hon, Hhandle. simpl.
    assert (Hgained : gained w
                        (emit Host (Notice "Recording stopped.")
                           (update_plugin (set_isRecording false)
                              (emit Host (RecorderStop r)
                                 (set_recorders (stop_recorder r (recorders w)) w))))
                      = [RecorderStop r; Notice "Recording stopped."]).
    { apply (gained_app _ _ [(Host, _); (Host, _)]). simpl. now rewrite <- !app_assoc. }
    rewrite Hgained. repeat split.
  - destruct (existsb stopping (recorders w) || existsb in_flight (runs w));
      now apply Hstart.
Qed.

(** C3, as the code has it. When a recorder confirms its stop and no segment was
    appended, [handleStop] builds an empty blob and starts the pipeline on
    it as on any other: no error is raised, the blob is read, and the
    recognition request is sent with an empty audio content. *)
Theorem C3_empty_capture_is_sent (w : World) (r : nat) :
  recorders w !! r = Some RecStopping ->
  audioChunks (plugin w) = [] ->
  runs (step (RecorderStopped r) w) !! length (runs w)
  = Some (Reading {| blob_bytes := []; blob_type := "audio/webm" |}) /\
  gained w (step (RecorderStopped r) w)
  = [ReadAsDataURL {| blob_bytes := []; blob_type := "audio/webm" |}] /\
  runs (step (ReaderLoadEnd (length (runs w))) (step (RecorderStopped r) w))
    !! length (runs w) = Some Fetching /\
  (exists req,
      gained (step (RecorderStopped r) w)
        (step (ReaderLoadEnd (length (runs w))) (step (RecorderStopped r) w))
      = [Fetch req] /\
      req_content req = Some "" /\
      req_config req = {| cfg_encoding := "WEBM_OPUS"; cfg_sampleRateHertz := 48000;
                          cfg_languageCode := languageCode (settings (plugin w)) |}).
Proof.
  intros Hr Hempty.
  assert (Hstart : runs (step (RecorderStopped r) w) !! length (runs w)
                   = Some (Reading {| blob_bytes := []; blob_type := "audio/webm" |})).
  { simpl. rewrite Hr. unfold handleStop. simpl. rewrite Hempty.
    now apply list_lookup_middle. }
  split; [exact Hstart |]. split.
  - simpl. rewrite Hr. unfold handleStop, gained. simpl.
    now rewrite Hempty, drop_app_length.
  - destruct (loaded_stage _ _ _ Hstart) as [Hstage Hgained].
    split; [exact Hstage |].
    eexists. split; [exact Hgained |]. split; [reflexivity |].
    simpl. rewrite Hr. reflexivity.
Qed.

(** Segments that arrive from a recorder that is recording or stopping are
    appended in the order of arrival; nothing else changes. *)
Lemma segments_appended (r : nat) (segments : list Blob) (w : World) :
  (recorders w !! r = Some RecRecording \/ recorders w !! r = Some RecStopping) ->
  audioChunks (plugin (run (map (DataAvailable r) segments) w))
  = audioChunks (plugin w) ++ segments /\
  recorders (run (map (DataAvailable r) segments) w) = recorders w /\
  runs (run (map (DataAvailable r) segments) w) = runs w /\
  isRecording (plugin (run (map (DataAvailable r) segments) w)) = isRecording (plugin w) /\
  mediaRecorder (plugin (run (map (DataAvailable r) segments) w))
  = mediaRecorder (plugin w).
Proof.
  revert w. induction segments as [|b rest IH]; intros w Hr.
  - simpl. rewrite app_nil_r. auto.
  - assert (Hone : step (DataAvailable r b) w = ondataavailable b w).
    { simpl. destruct Hr as [-> | ->]; reflexivity. }
    change (run (map (DataAvailable r) (b :: rest)) w)
      with (run (map (DataAvailable r) rest) (step (DataAvailable r b) w)).
    rewrite Hone.
    destruct (IH (ondataavailable b w) Hr) as (H1 & H2 & H3 & H4 & H5).
    rewrite H1, H2, H3, H4, H5. simpl. rewrite <- app_assoc. auto.
Qed.

Lemma stop_recorder_recording (r : nat) (l : list RecorderState) :
  l !! r = Some RecRecording -> stop_recorder r l = <[r := RecStopping]> l.
Proof. unfold stop_recorder. now intros ->. Qed.

(** One recording period that [stop()] ends: segments before the click,
    the click, segments until the recorder confirms, the confirmation. *)
Lemma period_world (w : World) (r : nat) (before after : list Blob) :
  isRecording (plugin w) = true ->
  mediaRecorder (plugin w) = Some r ->
  recorders w !! r = Some RecRecording ->
  runs (run (map (DataAvailable r) before ++ [RibbonClick]
             ++ map (DataAvailable r) after ++ [RecorderStopped r]) w)
  = runs w ++ [Reading (new_Blob (audioChunks (plugin w) ++ before ++ after) "audio/webm")]
  /\
  recorders (run (map (DataAvailable r) before ++ [RibbonClick]
                  ++ map (DataAvailable r) after ++ [RecorderStopped r]) w)
  = <[r := RecInactive]> (recorders w) /\
  isRecording (plugin (run (map (DataAvailable r) before ++ [RibbonClick]
                            ++ map (DataAvailable r) after ++ [RecorderStopped r]) w))
  = false.
Proof.
  intros Hon Hhandle Hrec.
  rewrite !run_app.
  destruct (segments_appended r before w (or_introl Hrec)) as (H1 & H2 & H3 & H4 & H5).
  set (w1 := run (map (DataAvailable r) before) w) in *.
  assert (Hclick : run [RibbonClick] w1
                   = emit Host (Notice "Recording stopped.")
                       (update_plugin (set_isRecording false)
                          (emit Host (RecorderStop r)
                             (set_recorders (<[r := RecStopping]> (recorders w1)) w1)))).
  { simpl. unfold toggleRecording, stopRecording.
    rewrite H4, Hon, H5, Hhandle, H2, (stop_recorder_recording r _ Hrec). reflexivity. }
  rewrite Hclick.
  set (w2 := emit Host _ _).
  assert (Hstopping : recorders w2 !! r = Some RecStopping).
  { unfold w2. simpl. rewrite H2. apply list_lookup_insert_eq.
    eapply lookup_lt_Some; exact Hrec. }
  destruct (segments_appended r after w2 (or_intror Hstopping)) as (G1 & G2 & G3 & G4 & G5).
  set (w3 := run (map (DataAvailable r) after) w2) in *.
  simpl. rewrite G2, Hstopping. unfold handleStop. simpl.
  rewrite G3, G4, G1. unfold w2. simpl. rewrite H3, H2, H1, <- app_assoc.
  split; [reflexivity |]. split; [| reflexivity].
  apply list_insert_insert_eq.
Qed.

(** One recording period that ends because the recorder stops on its own:
    the segments, then the [stop] event; the flag stays up. *)
Lemma unasked_world (w : World) (r : nat) (segments : list Blob) :
  recorders w !! r = Some RecRecording ->
  runs (run (map (DataAvailable r) segments ++ [RecorderStopped r]) w)
  = runs w ++ [Reading (new_Blob (audioChunks (plugin w) ++ segments) "audio/webm")] /\
  recorders (run (map (DataAvailable r) segments ++ [RecorderStopped r]) w)
  = <[r := RecInactive]> (recorders w) /\
  isRecording (plugin (run (map (DataAvailable r) segments ++ [RecorderStopped r]) w))
  = isRecording (plugin w) /\
  mediaRecorder (plugin (run (map (DataAvailable r) segments ++ [RecorderStopped r]) w))
  = mediaRecorder (plugin w).
Proof.
  intros Hrec. rewrite run_app.
  destruct (segments_appended r segments w (or_introl Hrec)) as (H1 & H2 & H3 & H4 & H5).
  set (w1 := run (map (DataAvailable r) segments) w) in *.
  simpl. rewrite H2, Hrec. unfold handleStop. simpl.
  now rewrite H1, H3, H4, H5.
Qed.

(** The two callbacks that start a recording while the flag is down. *)
Lemma started_world (w : World) :
  isRecording (plugin w) = false ->
  run [RibbonClick; MicGranted] w
  = startRecording_granted (set_micRequests (micRequests w) (startRecording w)).
Proof. intros Hoff. simpl. unfold toggleRecording. now rewrite Hoff. Qed.

(** *** The buffer between recordings *)

Lemma existsb_lookup {A : Type} (f : A -> bool) (l : list A) (i : nat) (x : A) :
  l !! i = Some x -> f x = true -> existsb f l = true.
Proof.
  intros Hi Hx. apply existsb_exists. exists x. split; [| exact Hx].
  apply list_elem_of_In, list_elem_of_lookup. now exists i.
Qed.

Lemma existsb_insert {A : Type} (f : A -> bool) (l : list A) (i : nat) (x y : A) :
  l !! i = Some x -> f y = true -> existsb f (<[i := y]> l) = true.
Proof.
  intros Hi Hy. apply (existsb_lookup f _ i y); [| exact Hy].
  apply list_lookup_insert_eq. eapply lookup_lt_Some; exact Hi.
Qed.

Lemma existsb_snoc {A : Type} (f : A -> bool) (l : list A) (y : A) :
  f y = true -> existsb f (l ++ [y]) = true.
Proof. intros Hy. rewrite existsb_app. simpl. rewrite Hy. apply orb_true_iff. auto. Qed.

Lemma not_quiescent_recorders (w : World) :
  existsb active (recorders w) = true -> quiescent w = true -> audioChunks (plugin w) = [].
Proof. unfold quiescent. intros ->. discriminate. Qed.

Lemma not_quiescent_runs (w : World) :
  existsb in_flight (runs w) = true -> quiescent w = true -> audioChunks (plugin w) = [].
Proof. unfold quiescent. intros ->. rewrite andb_false_r. discriminate. Qed.

Lemma buffer_ok_onload (d : StoredData) : buffer_ok (onload d).
Proof. intros _. unfold onload. simpl. destruct (negb _); reflexivity. Qed.

Lemma buffer_ok_step (e : Event) (w : World) : buffer_ok w -> buffer_ok (step e w).
Proof.
  unfold buffer_ok. intros Hw.
  destruct e as [ | | err | r data | r | t | t o | t o | f value | markdown ]; simpl;
    unfold toggleRecording, stopRecording, stop_recorder, startRecording,
      startRecording_denied, ondataavailable, transcribeAudio_onloadend,
      handleStop_transcribed, handleStop_cleaned, onChange;
    split_cases; try exact Hw; try (intros _; reflexivity);
    try (apply not_quiescent_recorders; simpl;
         first [ eapply existsb_insert; [eassumption | reflexivity]
               | eapply existsb_lookup; [eassumption | reflexivity]
               | apply existsb_snoc; reflexivity ]);
    try (apply not_quiescent_runs; simpl;
         first [ eapply existsb_insert; [eassumption | reflexivity]
               | apply existsb_snoc; reflexivity ]).
Qed.

Lemma buffer_ok_run (d : StoredData) (events : list Event) :
  buffer_ok (run events (onload d)).
Proof. apply run_invariant; [apply buffer_ok_step | apply buffer_ok_onload]. Qed.


(** *** The claim about the rejections of [transcribeAudio] *)

Lemma get_throws (v : JS.Val) (k : JS.Key) (t : JS.Thrown) :
  JS.get v k = JS.Abrupt t -> is_error t.
Proof.
  destruct v as [ | | b | z | s | items | fields]; simpl;
    try (intros [= <-]; eexists; reflexivity); try discriminate.
  - destruct k; try discriminate. destruct s; discriminate.
  - destruct k; try discriminate. destruct items; discriminate.
  - destruct (JS.own_property _ _); discriminate.
Qed.

Lemma gt0_throws (v : JS.Val) (t : JS.Thrown) :
  JS.gt0 to_number_gt0 v = JS.Abrupt t -> is_error t.
Proof.
  destruct v as [ | | b | z | s | items | fields]; simpl; try discriminate;
    destruct (to_number_gt0 _); try discriminate;
    intros [= <-]; eexists; reflexivity.
Qed.

Lemma has_results_throws (data : JS.Val) (t : JS.Thrown) :
  has_results data = JS.Abrupt t -> is_error t.
Proof.
  unfold has_results, mbind, completion_bind, JS.bind.
  destruct (JS.get data JS.KResults) as [results | t1] eqn:H1.
  - destruct (JS.truthy results); [| discriminate].
    destruct (JS.get results JS.KLength) as [len | t2] eqn:H2.
    + apply gt0_throws.
    + intros [= <-]. eapply get_throws, H2.
  - intros [= <-]. eapply get_throws, H1.
Qed.

Lemma no_transcript_is_no_error : ~ is_error no_transcript.
Proof. intros [e He]. discriminate He. Qed.

Lemma read_transcript_no_transcript (data : JS.Val) :
  read_transcript data = JS.Abrupt no_transcript <-> has_results data = JS.Normal false.
Proof.
  unfold read_transcript, mbind, completion_bind.
  destruct (has_results data) as [[|] | t] eqn:Hfound; simpl.
  - split; [| discriminate]. intros Habs. exfalso. apply no_transcript_is_no_error.
    unfold JS.bind in Habs.
    destruct (JS.get data JS.KResults) as [results | t1] eqn:H1;
      [| injection Habs as <-; eapply get_throws, H1].
    destruct (JS.get results JS.KIndex0) as [first | t2] eqn:H2;
      [| injection Habs as <-; eapply get_throws, H2].
    destruct (JS.get first JS.KAlternatives) as [alternatives | t3] eqn:H3;
      [| injection Habs as <-; eapply get_throws, H3].
    destruct (JS.get alternatives JS.KIndex0) as [alternative | t4] eqn:H4;
      [| injection Habs as <-; eapply get_throws, H4].
    eapply get_throws, Habs.
  - split; reflexivity.
  - split; [| discriminate]. intros [= ->]. exfalso.
    eapply no_transcript_is_no_error, has_results_throws, Hfound.
Qed.

(** C4, as the code has it. [transcribeAudio] never looks at the status of the
    response.  It rejects with the bare string [No transcript found]
    exactly when a body was decoded and the body has no results to show
    (the key is absent, or holds an empty array, among others), whatever
    the status; it rejects with the error itself when the network fails or
    the body cannot be decoded.  An error object is never that string, so
    the two rejections differ. *)
Theorem C4_rejections_of_transcribe (o : FetchOutcome) :
  (forall status status' data,
      transcribeAudio_settled (Decoded status data)
      = transcribeAudio_settled (Decoded status' data)) /\
  (transcribeAudio_settled o = JS.Abrupt no_transcript <->
   exists status data, o = Decoded status data /\ has_results data = JS.Normal false) /\
  (forall fields,
      JS.own_property "results" fields = None ->
      has_results (JS.Obj fields) = JS.Normal false) /\
  (forall fields,
      JS.own_property "results" fields = Some (JS.Arr []) ->
      has_results (JS.Obj fields) = JS.Normal false) /\
  (forall e, transcribeAudio_settled (NetworkFailure e) = JS.Abrupt (JS.ThrownError e)) /\
  (forall status e,
      transcribeAudio_settled (Undecodable status e) = JS.Abrupt (JS.ThrownError e)) /\
  (forall e, JS.ThrownError e <> no_transcript).
Proof.
  split; [reflexivity |]. split; [| split; [| split; [| repeat split]]].
  - destruct o as [e | status e | status data]; simpl.
    + split; [discriminate | intros (? & ? & [=] & _)].
    + split; [discriminate | intros (? & ? & [=] & _)].
    + rewrite read_transcript_no_transcript. split.
      * intros H. now exists status, data.
      * intros (? & ? & [= _ <-] & H). exact H.
  - intros fields Habsent. unfold has_results. simpl.
    change (JS.key_name JS.KResults) with "results". now rewrite Habsent.
  - intros fields Hempty. unfold has_results. simpl.
    change (JS.key_name JS.KResults) with "results". now rewrite Hempty.
  - discriminate.
Qed.

(** ** Further properties of the code *)

(** *** What [transcribeAudio] makes of a decoded body *)

Lemma has_results_nonempty (fields : list (string * JS.Val)) (first : JS.Val)
  (others : list JS.Val) :
  JS.own_property "results" fields = Some (JS.Arr (first :: others)) ->
  has_results (JS.Obj fields) = JS.Normal true.
Proof.
  intros Hres. unfold has_results, mbind, completion_bind, JS.bind. simpl.
  change (JS.key_name JS.KResults) with "results". rewrite Hres. reflexivity.
Qed.

(** X1. When the decoded body holds a non-empty array of results whose
    first element holds a non-empty array of alternatives whose first
    element has a transcript, [transcribeAudio] resolves with that
    transcript: the other results and alternatives are ignored, and so is
    the status of the response. *)
Theorem X1_first_alternative_of_first_result
  (status : Z) (fields first_fields alt_fields : list (string * JS.Val))
  (others other_alts : list JS.Val) (transcript : JS.Val) :
  JS.own_property "results" fields = Some (JS.Arr (JS.Obj first_fields :: others)) ->
  JS.own_property "alternatives" first_fields
  = Some (JS.Arr (JS.Obj alt_fields :: other_alts)) ->
  JS.own_property "transcript" alt_fields = Some transcript ->
  transcribeAudio_settled (Decoded status (JS.Obj fields)) = JS.Normal transcript.
Proof.
  intros Hres Halts Htr. simpl. unfold read_transcript.
  rewrite (has_results_nonempty _ _ _ Hres).
  unfold mbind, completion_bind, JS.bind. simpl.
  change (JS.key_name JS.KResults) with "results". rewrite Hres. simpl.
  change (JS.key_name JS.KAlternatives) with "alternatives". rewrite Halts. simpl.
  change (JS.key_name JS.KTranscript) with "transcript". now rewrite Htr.
Qed.

(** X2. When the first result has no [alternatives], the read of its
    first alternative throws inside the [try], and the promise is rejected
    with that [TypeError], not with the string of the empty result; the
    run then ends as any failed transcription, without refinement. *)
Theorem X2_result_without_alternatives_rejects_with_TypeError
  (w : World) (t : nat) (status : Z)
  (fields first_fields : list (string * JS.Val)) (others : list JS.Val) :
  runs w !! t = Some Fetching ->
  JS.own_property "results" fields = Some (JS.Arr (JS.Obj first_fields :: others)) ->
  JS.own_property "alternatives" first_fields = None ->
  transcribeAudio_settled (Decoded status (JS.Obj fields))
  = JS.Abrupt (JS.cannot_read JS.Undefined JS.KIndex0) /\
  JS.cannot_read JS.Undefined JS.KIndex0 <> no_transcript /\
  runs (step (FetchSettled t (Decoded status (JS.Obj fields))) w) !! t
  = Some (Settled (TranscribeRejected (JS.cannot_read JS.Undefined JS.KIndex0))) /\
  gained w (step (FetchSettled t (Decoded status (JS.Obj fields))) w)
  = [failure_notice; ConsoleError None (JS.cannot_read JS.Undefined JS.KIndex0);
     ClearChunks].
Proof.
  intros Hs Hres Halts.
  assert (Hrej : transcribeAudio_settled (Decoded status (JS.Obj fields))
                 = JS.Abrupt (JS.cannot_read JS.Undefined JS.KIndex0)).
  { simpl. unfold read_transcript.
    rewrite (has_results_nonempty _ _ _ Hres).
    unfold mbind, completion_bind, JS.bind. simpl.
    change (JS.key_name JS.KResults) with "results". rewrite Hres. simpl.
    change (JS.key_name JS.KAlternatives) with "alternatives". now rewrite Halts. }
  split; [exact Hrej |]. split; [discriminate |]. split.
  - rewrite (transcribed_runs w t _ Hs). unfold transcribed_stage. now rewrite Hrej.
  - rewrite (transcribed_gained w t _ Hs). now rewrite Hrej.
Qed.

(** X3. When the first alternative has no [transcript], the promise
    resolves with [undefined]; [cleanText] is called with it and, the
    client being set, sends a prompt that ends with the word [undefined]. *)
Theorem X3_missing_transcript_is_sent_as_undefined
  (w : World) (t : nat) (status : Z) (client : GoogleGenerativeAI)
  (fields first_fields alt_fields : list (string * JS.Val))
  (others other_alts : list JS.Val) :
  runs w !! t = Some Fetching ->
  genAI (plugin w) = Some client ->
  JS.own_property "results" fields = Some (JS.Arr (JS.Obj first_fields :: others)) ->
  JS.own_property "alternatives" first_fields
  = Some (JS.Arr (JS.Obj alt_fields :: other_alts)) ->
  JS.own_property "transcript" alt_fields = None ->
  transcribeAudio_settled (Decoded status (JS.Obj fields)) = JS.Normal JS.Undefined /\
  runs (step (FetchSettled t (Decoded status (JS.Obj fields))) w) !! t = Some Generating /\
  gained w (step (FetchSettled t (Decoded status (JS.Obj fields))) w)
  = [CallCleanText JS.Undefined;
     GenerateContent {| gen_client := client; gen_model := "gemini-pro";
                        gen_prompt := instruction ++ "undefined" |}].
Proof.
  intros Hs Hg Hres Halts Htr.
  assert (Hok : transcribeAudio_settled (Decoded status (JS.Obj fields))
                = JS.Normal JS.Undefined).
  { simpl. unfold read_transcript.
    rewrite (has_results_nonempty _ _ _ Hres).
    unfold mbind, completion_bind, JS.bind. simpl.
    change (JS.key_name JS.KResults) with "results". rewrite Hres. simpl.
    change (JS.key_name JS.KAlternatives) with "alternatives". rewrite Halts. simpl.
    change (JS.key_name JS.KTranscript) with "transcript". now rewrite Htr. }
  split; [exact Hok |]. split.
  - rewrite (transcribed_runs w t _ Hs). unfold transcribed_stage.
    rewrite Hok, Hg. reflexivity.
  - rewrite (transcribed_gained w t _ Hs). rewrite Hok, Hg. reflexivity.
Qed.

(** *** The recognition request *)

Lemma payload_of_webm (b : Blob) :
  blob_type b = "audio/webm" ->
  split "," (readAsDataURL b) !! 1 = Some (base64 (blob_bytes b)).
Proof.
  destruct b as [bytes type]. simpl. intros ->.
  unfold readAsDataURL. simpl.
  rewrite split_comma_free by apply base64_comma_free. reflexivity.
Qed.

Lemma started_blob (e : Event) (w : World) (b : Blob) :
  runs (step e w) = runs w ++ [Reading b] -> blob_type b = "audio/webm".
Proof.
  destruct e as [ | | err | r data | r | t | t o | t o | f value | markdown ]; simpl;
    unfold toggleRecording, stopRecording, startRecording, startRecording_denied,
      ondataavailable, transcribeAudio_onloadend,
      handleStop_transcribed, handleStop_cleaned, onChange;
    split_cases; simpl; intros Hruns;
    try (apply (f_equal length) in Hruns;
         rewrite ?length_app, ?length_insert in Hruns; simpl in Hruns; lia).
  all: apply app_inj_tail in Hruns as [_ [= <-]]; reflexivity.
Qed.

Lemma readings_ok_step (e : Event) (w : World) : readings_ok w -> readings_ok (step e w).
Proof.
  intros Hw t b Hs.
  destruct (step_classified e w)
    as [acts Hruns _ _ | b0 Hruns _ | t0 s acts s' Hs0 Hruns _ Hadv _ _ _].
  - rewrite Hruns in Hs. now apply (Hw t).
  - pose proof (started_blob e w b0 Hruns) as Hb0.
    rewrite Hruns in Hs. apply lookup_app_Some in Hs as [Hs | [_ Hs]].
    + now apply (Hw t).
    + destruct (t - length (runs w)) as [|k]; [| destruct k; discriminate Hs].
      injection Hs as <-. exact Hb0.
  - rewrite Hruns in Hs.
    apply list_lookup_insert_Some in Hs as [(_ & Heq & _) | (_ & Hs)].
    + subst s'. inversion Hadv.
    + now apply (Hw t).
Qed.

Lemma readings_ok_run (d : StoredData) (events : list Event) :
  readings_ok (run events (onload d)).
Proof.
  apply run_invariant; [apply readings_ok_step |]. intros t b Hs. discriminate Hs.
Qed.

(** X4. When the reader has finished, exactly one request is sent: a POST
    to the recognition endpoint whose key and language code are the
    settings of that moment, with the fixed encoding and sample rate, and
    whose audio content is the base64 of the bytes of the blob, whole:
    [split(',')[1]] cuts nothing off, because neither the type of the blob
    nor base64 contains a comma. *)
Theorem X4_recognition_request
  (d : StoredData) (events : list Event) (t : nat) (b : Blob) :
  runs (run events (onload d)) !! t = Some (Reading b) ->
  gained (run events (onload d)) (step (ReaderLoadEnd t) (run events (onload d)))
  = [Fetch {| req_url := "https://speech.googleapis.com/v1/speech:recognize?key="
                         ++ googleApiKey (settings (plugin (run events (onload d))));
              req_method := "POST";
              req_content_type := "application/json";
              req_config :=
                {| cfg_encoding := "WEBM_OPUS"; cfg_sampleRateHertz := 48000;
                   cfg_languageCode :=
                     languageCode (settings (plugin (run events (onload d)))) |};
              req_content := Some (base64 (blob_bytes b)) |}].
Proof.
  intros Hs. destruct (loaded_stage _ t b Hs) as [_ Hgained].
  rewrite Hgained. unfold recognize_request.
  now rewrite (payload_of_webm b (readings_ok_run d events t b Hs)).
Qed.

(** *** The settings and their storage *)

Lemma saved_app (d : StoredData) (l1 l2 : list (Origin * Action)) :
  saved d (l1 ++ l2) = saved (saved d l1) l2.
Proof.
  revert d. induction l1 as [|[o a] l1 IH]; intros d; simpl; [reflexivity |].
  destruct a; apply IH.
Qed.

Lemma saved_step (d : StoredData) (e : Event) (w : World) :
  loadSettings (saved d (log w)) = settings (plugin w) ->
  loadSettings (saved d (log (step e w))) = settings (plugin (step e w)).
Proof.
  intros Hw.
  destruct e as [ | | err | r data | r | t | t o | t o | f value | markdown ]; simpl;
    unfold toggleRecording, stopRecording, startRecording, startRecording_denied,
      ondataavailable, transcribeAudio_onloadend,
      handleStop_transcribed, handleStop_cleaned, onChange;
    split_cases; simpl; rewrite ?saved_app; simpl; try exact Hw; reflexivity.
Qed.

Lemma saved_onload (d : StoredData) :
  loadSettings (saved d (log (onload d))) = settings (plugin (onload d)).
Proof. unfold onload. simpl. destruct (negb _); reflexivity. Qed.

(** X5. What is stored always agrees with what is in memory: after any
    callbacks, loading the stored data again yields the current settings.
    Hence a reload restores every edit, and builds the generative client
    exactly when the credential now in the settings is not empty. *)
Theorem X5_settings_survive_a_reload (d : StoredData) (events : list Event) :
  loadSettings (saved d (log (run events (onload d))))
  = settings (plugin (run events (onload d))) /\
  settings (plugin (onload (saved d (log (run events (onload d))))))
  = settings (plugin (run events (onload d))) /\
  genAI (plugin (onload (saved d (log (run events (onload d))))))
  = (if String.eqb (geminiApiKey (settings (plugin (run events (onload d))))) ""
     then None
     else Some {| apiKey := geminiApiKey (settings (plugin (run events (onload d)))) |}).
Proof.
  assert (Hsync : forall events' w,
             loadSettings (saved d (log w)) = settings (plugin w) ->
             loadSettings (saved d (log (run events' w)))
             = settings (plugin (run events' w))).
  { induction events' as [|e rest IH]; intros w Hw; simpl; [exact Hw |].
    apply IH, saved_step, Hw. }
  pose proof (Hsync events (onload d) (saved_onload d)) as Hnow.
  split; [exact Hnow |]. split.
  - rewrite <- Hnow. unfold onload. simpl. destruct (negb _); reflexivity.
  - rewrite genAI_onload, Hnow. reflexivity.
Qed.

(** *** What a run reports and what it sends *)

Lemma report_of_outcome (s : Stage) (tr : list Action) :
  trace_at s tr ->
  match s with
  | Settled (TranscribeRejected err) | Settled (CleanTextRejected err) =>
      List.filter is_notice tr = [failure_notice] /\ In (ConsoleError None err) tr
  | _ => count is_notice tr = 0
  end.
Proof. intros H. inversion H; subst; simpl; auto 10. Qed.

(** X6. A run that fails, at either stage, shows the failure notice exactly
    once and logs the thrown value to the console; a run that completes,
    delivered or not, and a run that is still in flight have shown no
    notice at all. *)
Theorem X6_failures_are_reported_once
  (d : StoredData) (events : list Event) (t : nat) (s : Stage) :
  runs (run events (onload d)) !! t = Some s ->
  match s with
  | Settled (TranscribeRejected err) | Settled (CleanTextRejected err) =>
      List.filter is_notice (trace t (run events (onload d))) = [failure_notice] /\
      In (ConsoleError None err) (trace t (run events (onload d)))
  | _ => count is_notice (trace t (run events (onload d))) = 0
  end.
Proof.
  intros Hs. destruct (traces_ok_run d events) as [Hat _].
  exact (report_of_outcome _ _ (Hat t s Hs)).
Qed.

Lemma requests_of_stage (s : Stage) (tr : list Action) :
  trace_at s tr -> count is_fetch tr <= 1 /\ count is_generate tr <= 1.
Proof. intros H. inversion H; subst; simpl; unfold count; simpl; lia. Qed.

(** X7. No run ever retries: at any time a run has sent at most one
    recognition request and at most one request to the generative
    service.  Outside the runs no request is sent at all: loading,
    clicking and editing the settings never reach the network. *)
Theorem X7_at_most_one_request_per_service
  (d : StoredData) (events : list Event) (t : nat) :
  count is_fetch (trace t (run events (onload d))) <= 1 /\
  count is_generate (trace t (run events (onload d))) <= 1 /\
  (forall a, In (Host, a) (log (run events (onload d))) -> is_request a = false).
Proof.
  destruct (traces_ok_run d events) as [Hat Hnone].
  assert (Hboth : count is_fetch (trace t (run events (onload d))) <= 1 /\
                  count is_generate (trace t (run events (onload d))) <= 1).
  { destruct (runs (run events (onload d)) !! t) as [s|] eqn:Hs.
    - exact (requests_of_stage _ _ (Hat t s Hs)).
    - apply lookup_ge_None in Hs. rewrite (Hnone t Hs). unfold count. simpl. lia. }
  destruct Hboth as [Hfetch Hgen]. split; [exact Hfetch |]. split; [exact Hgen |].
  intros a Hin. pose proof (host_ok_run d events a Hin) as Hhost.
  destruct a; try reflexivity; discriminate Hhost.
Qed.

(** *** Recordings that overlap *)


(** A recorder that is not the handle is never asked to stop. *)
Lemma no_stop_step (e : Event) (w : World) (r : nat) :
  mediaRecorder (plugin w) <> Some r ->
  List.filter (is_stop_of r) (log (step e w)) = List.filter (is_stop_of r) (log w).
Proof.
  intros Hne.
  destruct e as [ | | err | r' data | r' | t | t o | t o | f value | markdown ]; simpl;
    unfold toggleRecording, stopRecording, startRecording, startRecording_denied,
      ondataavailable, transcribeAudio_onloadend,
      handleStop_transcribed, handleStop_cleaned, handleStop_catch, handleStop_finally,
      onChange;
    split_cases; simpl; rewrite ?List.filter_app; simpl; rewrite ?app_nil_r;
    try reflexivity.
  all: unfold is_stop_of; simpl;
    match goal with
    | |- context [Nat.eqb ?a ?b] => destruct (Nat.eqb_spec a b); [congruence | ]
    end; simpl; now rewrite ?app_nil_r.
Qed.

(** Such a recorder, while it records, leaves that state only by stopping
    on its own; the handle never comes back to it. *)
Lemma orphan_step (e : Event) (w : World) (r : nat) :
  recorders w !! r = Some RecRecording ->
  mediaRecorder (plugin w) <> Some r ->
  recorders (step e w) !! r
  = Some (if not_stop_of r e then RecRecording else RecInactive) /\
  mediaRecorder (plugin (step e w)) <> Some r.
Proof.
  intros Hrec Hne. pose proof (lookup_lt_Some _ _ _ Hrec) as Hlt.
  destruct e as [ | | err | r' data | r' | t | t o | t o | f value | markdown ];
    try (destruct (Nat.eqb_spec r r') as [<- | Hother]); simpl;
    rewrite ?Hrec, ?Nat.eqb_refl; simpl;
    try (destruct (Nat.eqb_spec r r') as [-> | _]; [congruence |]); simpl;
    unfold toggleRecording, stopRecording, stop_recorder, startRecording,
      startRecording_denied, ondataavailable, transcribeAudio_onloadend,
      handleStop_transcribed, handleStop_cleaned, onChange;
    split_cases; simpl;
    first
      [ (* nothing that matters has changed *)
        split; [first [assumption | reflexivity] | congruence]
      | (* this recorder has stopped on its own *)
        split; [now apply list_lookup_insert_eq | congruence]
      | (* a recorder other than this one is stopped, or confirms its stop *)
        split; [rewrite list_lookup_insert_ne; [exact Hrec | congruence] | congruence]
      | (* a new recorder becomes the handle *)
        split; [now apply lookup_app_l_Some | intros [= Heq]; lia] ].
Qed.

(** Once inactive, a recorder that is not the handle stays as it is. *)
Lemma stopped_orphan_step (e : Event) (w : World) (r : nat) :
  recorders w !! r = Some RecInactive ->
  mediaRecorder (plugin w) <> Some r ->
  recorders (step e w) !! r = Some RecInactive /\
  mediaRecorder (plugin (step e w)) <> Some r.
Proof.
  intros Hrec Hne. pose proof (lookup_lt_Some _ _ _ Hrec) as Hlt.
  destruct e as [ | | err | r' data | r' | t | t o | t o | f value | markdown ];
    try (destruct (Nat.eqb_spec r r') as [<- | Hother]); simpl;
    rewrite ?Hrec; simpl;
    unfold toggleRecording, stopRecording, stop_recorder, startRecording,
      startRecording_denied, ondataavailable, transcribeAudio_onloadend,
      handleStop_transcribed, handleStop_cleaned, onChange;
    split_cases; simpl;
    first
      [ split; [first [assumption | reflexivity] | congruence]
      | split; [rewrite list_lookup_insert_ne; [exact Hrec | congruence] | congruence]
      | split; [now apply lookup_app_l_Some | intros [= Heq]; lia] ].
Qed.

Lemma orphan_run (events : list Event) (w : World) (r : nat) :
  recorders w !! r = Some RecRecording ->
  mediaRecorder (plugin w) <> Some r ->
  recorders (run events w) !! r
  = Some (if forallb (not_stop_of r) events then RecRecording else RecInactive) /\
  List.filter (is_stop_of r) (log (run events w)) = List.filter (is_stop_of r) (log w).
Proof.
  assert (Hstopped : forall events w,
             recorders w !! r = Some RecInactive ->
             mediaRecorder (plugin w) <> Some r ->
             recorders (run events w) !! r = Some RecInactive /\
             List.filter (is_stop_of r) (log (run events w))
             = List.filter (is_stop_of r) (log w)).
  { clear. induction events as [|e rest IH]; intros w Hrec Hne; [now split |].
    rewrite run_cons.
    destruct (stopped_orphan_step e w r Hrec Hne) as [Hrec' Hne'].
    destruct (IH _ Hrec' Hne') as [H1 H2].
    split; [exact H1 |]. rewrite H2. now apply no_stop_step. }
  revert w. induction events as [|e rest IH]; intros w Hrec Hne; [now split |].
  rewrite run_cons.
  destruct (orphan_step e w r Hrec Hne) as [Hrec' Hne'].
  pose proof (no_stop_step e w r Hne) as Hlog.
  simpl forallb. destruct (not_stop_of r e).
  - destruct (IH _ Hrec' Hne') as [H1 H2]. split; [exact H1 | congruence].
  - destruct (Hstopped rest _ Hrec' Hne') as [H1 H2]. split; [exact H1 | congruence].
Qed.

Lemma click_while_off (w : World) :
  isRecording (plugin w) = false -> step RibbonClick w = startRecording w.
Proof. intros Hoff. simpl. unfold toggleRecording. now rewrite Hoff. Qed.

Lemma granted_request (w : World) (n : nat) :
  micRequests w = S n ->
  step MicGranted w = startRecording_granted (set_micRequests n w).
Proof. intros Hn. simpl. now rewrite Hn. Qed.

(** X9. A click while the microphone has not answered yet requests it
    again; when both requests are granted two recorders are started, and
    only the second is kept as the handle.  The plugin can never stop the
    first: whatever happens afterwards no [stop()] is called on it, and it
    is recording until its own [stop] event, if that ever comes, after
    which it is inactive. *)
Theorem X9_double_click_leaves_a_recorder_running
  (w : World) (later : list Event) :
  isRecording (plugin w) = false ->
  recorders (run [RibbonClick; RibbonClick; MicGranted; MicGranted] w)
  = recorders w ++ [RecRecording; RecRecording] /\
  mediaRecorder (plugin (run [RibbonClick; RibbonClick; MicGranted; MicGranted] w))
  = Some (S (length (recorders w))) /\
  List.filter (is_stop_of (length (recorders w)))
    (log (run later (run [RibbonClick; RibbonClick; MicGranted; MicGranted] w)))
  = List.filter (is_stop_of (length (recorders w))) (log w) /\
  recorders (run later (run [RibbonClick; RibbonClick; MicGranted; MicGranted] w))
    !! length (recorders w)
  = Some (if forallb (not_stop_of (length (recorders w))) later
          then RecRecording else RecInactive).
Proof.
  intros Hoff.
  assert (Hw : run [RibbonClick; RibbonClick; MicGranted; MicGranted] w
               = startRecording_granted
                   (set_micRequests (micRequests w)
                      (startRecording_granted
                         (set_micRequests (S (micRequests w))
                            (startRecording (startRecording w)))))).
  { rewrite !run_cons, run_nil.
    rewrite (click_while_off w Hoff).
    rewrite (click_while_off (startRecording w)) by exact Hoff.
    rewrite (granted_request (startRecording (startRecording w)) (S (micRequests w)))
      by reflexivity.
    rewrite (granted_request _ (micRequests w)) by reflexivity.
    reflexivity. }
  rewrite Hw. set (w4 := startRecording_granted _).
  assert (Hrecs : recorders w4 = recorders w ++ [RecRecording; RecRecording]).
  { unfold w4. simpl. now rewrite <- app_assoc. }
  assert (Hhandle : mediaRecorder (plugin w4) = Some (S (length (recorders w)))).
  { unfold w4. simpl. rewrite length_app. simpl. f_equal. lia. }
  assert (Hlog : List.filter (is_stop_of (length (recorders w))) (log w4)
                 = List.filter (is_stop_of (length (recorders w))) (log w)).
  { unfold w4. simpl. rewrite !List.filter_app. simpl. now rewrite !app_nil_r. }
  split; [exact Hrecs |]. split; [exact Hhandle |].
  destruct (orphan_run later w4 (length (recorders w))) as [Hstate Hstops].
  - rewrite Hrecs. now apply list_lookup_middle.
  - rewrite Hhandle. intros [= Heq]. lia.
  - split; [congruence | exact Hstate].
Qed.

(** *** A recorder that stops on its own *)

(** X10. [onstop] is bound to [handleStop] whatever ends the recording.
    When the recorder that is recording stops on its own, [handleStop]
    runs on what the buffer holds, and the flag stays up although nothing
    records any more.  The next click therefore takes the stop branch: it
    calls [stop()] on the inactive recorder, lowers the flag and shows
    <<Recording stopped.>>; it starts neither a recording nor a second run. *)
Theorem X10_recorder_stopped_on_its_own
  (w : World) (r : nat) (segments : list Blob) :
  isRecording (plugin w) = true ->
  mediaRecorder (plugin w) = Some r ->
  recorders w !! r = Some RecRecording ->
  runs (run (map (DataAvailable r) segments ++ [RecorderStopped r]) w)
  = runs w ++ [Reading (new_Blob (audioChunks (plugin w) ++ segments) "audio/webm")] /\
  recorders (run (map (DataAvailable r) segments ++ [RecorderStopped r]) w)
  = <[r := RecInactive]> (recorders w) /\
  machine_state (run (map (DataAvailable r) segments ++ [RecorderStopped r]) w)
  = Recording /\
  gained (run (map (DataAvailable r) segments ++ [RecorderStopped r]) w)
    (step RibbonClick (run (map (DataAvailable r) segments ++ [RecorderStopped r]) w))
  = [RecorderStop r; Notice "Recording stopped."] /\
  recorders (step RibbonClick
               (run (map (DataAvailable r) segments ++ [RecorderStopped r]) w))
  = <[r := RecInactive]> (recorders w) /\
  runs (step RibbonClick (run (map (DataAvailable r) segments ++ [RecorderStopped r]) w))
  = runs (run (map (DataAvailable r) segments ++ [RecorderStopped r]) w) /\
  micRequests (step RibbonClick
                 (run (map (DataAvailable r) segments ++ [RecorderStopped r]) w))
  = micRequests (run (map (DataAvailable r) segments ++ [RecorderStopped r]) w) /\
  isRecording (plugin (step RibbonClick
                         (run (map (DataAvailable r) segments ++ [RecorderStopped r]) w)))
  = false.
Proof.
  intros Hon Hhandle Hrec.
  destruct (unasked_world w r segments Hrec) as (Hruns & Hrecs & Hflag & Hkept).
  set (w' := run (map (DataAvailable r) segments ++ [RecorderStopped r]) w) in *.
  rewrite Hon in Hflag. rewrite Hhandle in Hkept.
  assert (Hinactive : recorders w' !! r = Some RecInactive).
  { rewrite Hrecs. apply list_lookup_insert_eq. eapply lookup_lt_Some; exact Hrec. }
  assert (Hclick : step RibbonClick w'
                   = emit Host (Notice "Recording stopped.")
                       (update_plugin (set_isRecording false)
                          (emit Host (RecorderStop r) (set_recorders (recorders w') w')))).
  { simpl. unfold toggleRecording, stopRecording, stop_recorder.
    now rewrite Hflag, Hkept, Hinactive. }
  split; [exact Hruns |]. split; [exact Hrecs |].
  split; [unfold machine_state; now rewrite Hflag |].
  rewrite Hclick. split.
  - apply (gained_app _ _ [(Host, RecorderStop r); (Host, Notice "Recording stopped.")]).
    simpl. now rewrite <- app_assoc.
  - simpl. rewrite Hrecs. repeat split.
Qed.

(** *** A whole run, and a whole cycle *)

Lemma resumption_frame (e : Event) (w : World) :
  match e with
  | ReaderLoadEnd _ | FetchSettled _ _ | GenerateSettled _ _ =>
      activeEditor (step e w) = activeEditor w /\
      recorders (step e w) = recorders w /\
      isRecording (plugin (step e w)) = isRecording (plugin w) /\
      length (runs (step e w)) = length (runs w)
  | _ => True
  end.
Proof.
  destruct e as [ | | err | r data | r | t | t o | t o | f value | markdown ];
    try exact I; simpl;
    unfold transcribeAudio_onloadend, handleStop_transcribed, handleStop_cleaned;
    split_cases; simpl; rewrite ?length_insert; auto.
Qed.

Lemma other_runs (e : Event) (w : World) (t i : nat) :
  i <> t ->
  match e with
  | ReaderLoadEnd t' | FetchSettled t' _ | GenerateSettled t' _ =>
      t' = t -> runs (step e w) !! i = runs w !! i
  | _ => True
  end.
Proof.
  intros Hne.
  destruct e as [ | | err | r data | r | t' | t' o | t' o | f value | markdown ];
    try exact I; intros ->; simpl;
    unfold transcribeAudio_onloadend, handleStop_transcribed, handleStop_cleaned;
    split_cases; simpl; try reflexivity;
    now rewrite list_lookup_insert_ne.
Qed.

Lemma whole_run
  (w : World) (t : nat) (b : Blob) (o1 : FetchOutcome) (o2 : GenerateOutcome) :
  runs w !! t = Some (Reading b) ->
  runs (run [ReaderLoadEnd t; FetchSettled t o1; GenerateSettled t o2] w) !! t
  = Some (Settled (run_outcome to_number_gt0 to_string
                     (genAI (plugin w)) (activeEditor w) o1 o2)) /\
  audioChunks (plugin (run [ReaderLoadEnd t; FetchSettled t o1; GenerateSettled t o2] w))
  = [] /\
  recorders (run [ReaderLoadEnd t; FetchSettled t o1; GenerateSettled t o2] w)
  = recorders w /\
  isRecording (plugin (run [ReaderLoadEnd t; FetchSettled t o1; GenerateSettled t o2] w))
  = isRecording (plugin w).
Proof.
  intros Hs.
  change (run [ReaderLoadEnd t; FetchSettled t o1; GenerateSettled t o2] w)
    with (step (GenerateSettled t o2) (step (FetchSettled t o1) (step (ReaderLoadEnd t) w))).
  destruct (loaded_stage w t b Hs) as [H1 _].
  destruct (resumption_frame (ReaderLoadEnd t) w) as (E1 & R1 & F1 & _).
  set (w1 := step (ReaderLoadEnd t) w) in *.
  pose proof (transcribed_runs w1 t o1 H1) as H2.
  destruct (resumption_frame (FetchSettled t o1) w1) as (E2 & R2 & F2 & _).
  assert (Hg : genAI (plugin w1) = genAI (plugin w)) by apply genAI_step.
  unfold transcribed_stage in H2. unfold run_outcome. rewrite Hg in H2.
  set (w2 := step (FetchSettled t o1) w1) in *.
  destruct (resumption_frame (GenerateSettled t o2) w2) as (_ & R3 & F3 & _).
  rewrite R3, F3, R2, F2, R1, F1.
  destruct (transcribeAudio_settled o1) as [transcript | err].
  - destruct (cleanText (genAI (plugin w)) transcript) as [req | err].
    + pose proof (cleaned_runs w2 t o2 H2) as H3. rewrite E2, E1 in H3.
      split; [| split; [| split; reflexivity]].
      * rewrite H3. now destruct o2.
      * eapply (settling_step (GenerateSettled t o2) w2 t Generating);
          [exact H2 | reflexivity | exact H3].
    + assert (Hsame : step (GenerateSettled t o2) w2 = w2).
      { simpl. now rewrite H2. }
      rewrite Hsame. split; [exact H2 | split; [| split; reflexivity]].
      eapply (settling_step (FetchSettled t o1) w1 t Fetching);
        [exact H1 | reflexivity | exact H2].
  - assert (Hsame : step (GenerateSettled t o2) w2 = w2).
    { simpl. now rewrite H2. }
    rewrite Hsame. split; [exact H2 | split; [| split; reflexivity]].
    eapply (settling_step (FetchSettled t o1) w1 t Fetching);
      [exact H1 | reflexivity | exact H2].
Qed.

(** X12. A run as a whole: once the reader, the recognition service and
    the generative service have answered, the run has settled with the
    outcome that the two answers, the client and the presence of an editor
    determine; the buffer is empty, and the recorders and the flag are as
    they were.  When the run settles on the recognition answer already, the
    late answer of the generative service changes nothing. *)
Theorem X12_run_as_a_whole
  (w : World) (t : nat) (b : Blob) (o1 : FetchOutcome) (o2 : GenerateOutcome) :
  runs w !! t = Some (Reading b) ->
  runs (run [ReaderLoadEnd t; FetchSettled t o1; GenerateSettled t o2] w) !! t
  = Some (Settled (run_outcome to_number_gt0 to_string
                     (genAI (plugin w)) (activeEditor w) o1 o2)) /\
  audioChunks (plugin (run [ReaderLoadEnd t; FetchSettled t o1; GenerateSettled t o2] w))
  = [] /\
  recorders (run [ReaderLoadEnd t; FetchSettled t o1; GenerateSettled t o2] w)
  = recorders w /\
  isRecording (plugin (run [ReaderLoadEnd t; FetchSettled t o1; GenerateSettled t o2] w))
  = isRecording (plugin w).
Proof. apply whole_run. Qed.

Lemma stopping_is_active (l : list RecorderState) :
  existsb active l = false -> existsb stopping l = false.
Proof.
  induction l as [|r l IH]; simpl; [reflexivity |].
  destruct r; simpl; try discriminate; exact IH.
Qed.

Lemma existsb_false_lookup {A : Type} (f : A -> bool) (l : list A) :
  (forall i x, l !! i = Some x -> f x = false) -> existsb f l = false.
Proof.
  intros Hall. apply not_true_is_false. intros Hex.
  apply existsb_exists in Hex as [x [Hin Hx]].
  apply list_elem_of_In, list_elem_of_lookup in Hin as [i Hi].
  rewrite (Hall i x Hi) in Hx. discriminate Hx.
Qed.

Lemma lookup_existsb_false {A : Type} (f : A -> bool) (l : list A) (i : nat) (x : A) :
  existsb f l = false -> l !! i = Some x -> f x = false.
Proof.
  intros Hnone Hi. destruct (f x) eqn:Hx; [| reflexivity].
  rewrite (existsb_lookup f l i x Hi Hx) in Hnone. discriminate Hnone.
Qed.

(** X11. Whenever nothing is under way (every recorder inactive, every run
    settled) the buffer is empty: no segment is left over between
    recordings.  The machine is then [Idle], unless the flag is still up;
    that happens only after the recorder has stopped on its own, and the
    handle is then that inactive recorder. *)
Theorem X11_nothing_left_over_when_idle (d : StoredData) (events : list Event) :
  quiescent (run events (onload d)) = true ->
  audioChunks (plugin (run events (onload d))) = [] /\
  (isRecording (plugin (run events (onload d))) = false ->
   machine_state (run events (onload d)) = Idle) /\
  (isRecording (plugin (run events (onload d))) = true ->
   exists r, mediaRecorder (plugin (run events (onload d))) = Some r /\
             recorders (run events (onload d)) !! r = Some RecInactive).
Proof.
  intros Hq. split; [exact (buffer_ok_run d events Hq) |].
  unfold quiescent in Hq. apply andb_true_iff in Hq as [Hrec Hruns].
  apply negb_true_iff in Hrec, Hruns. split.
  - intros Hoff. unfold machine_state.
    now rewrite Hoff, (stopping_is_active _ Hrec), Hruns.
  - intros Hon. destruct (handle_ok_run d events) as [Hlt Hex].
    destruct (Hex Hon) as [r Hr]. exists r. split; [exact Hr |].
    destruct (lookup_lt_is_Some_2 _ _ (Hlt r Hr)) as [st Hst].
    pose proof (lookup_existsb_false active _ r st Hrec Hst) as Hst'.
    destruct st; try discriminate Hst'. exact Hst.
Qed.

(** X14. Editing one field of the settings tab sets that setting and leaves
    the other two as they were; the settings are saved at once, and the tab
    shows the new value the next time it is displayed. *)
Theorem X14_an_edit_is_saved_and_displayed (w : World) (f : Field) (value : string) :
  row_value <$> display (plugin (step (SettingChanged f value) w)) !! row_of f
  = Some value /\
  (forall i, i <> row_of f ->
             display (plugin (step (SettingChanged f value) w)) !! i
             = display (plugin w) !! i) /\
  gained w (step (SettingChanged f value) w)
  = [SaveData (settings (plugin (step (SettingChanged f value) w)))].
Proof.
  split; [| split].
  - destruct f; reflexivity.
  - intros i Hne. destruct f; destruct i as [|[|[|i]]]; simpl in Hne;
      try reflexivity; contradiction.
  - apply (gained_app _ _ [(Host, _)]). reflexivity.
Qed.

(** X13. The machine is cyclic.  From any world in which nothing is under
    way and the flag is down, a complete cycle (click, microphone granted,
    any segments, click, any segments, the recorder's confirmation, and the
    answers of the reader and of the two services, whatever they are) ends
    in a world in which again nothing is under way: the flag is down, the
    buffer is empty, and the next recording starts as the first did. *)
Theorem X13_a_cycle_returns_to_rest
  (w : World) (before after : list Blob) (o1 : FetchOutcome) (o2 : GenerateOutcome) :
  quiescent w = true ->
  isRecording (plugin w) = false ->
  quiescent
    (run [ReaderLoadEnd (length (runs w));
          FetchSettled (length (runs w)) o1;
          GenerateSettled (length (runs w)) o2]
       (run ([RibbonClick; MicGranted]
             ++ map (DataAvailable (length (recorders w))) before
             ++ [RibbonClick]
             ++ map (DataAvailable (length (recorders w))) after
             ++ [RecorderStopped (length (recorders w))]) w)) = true /\
  isRecording
    (plugin
       (run [ReaderLoadEnd (length (runs w));
             FetchSettled (length (runs w)) o1;
             GenerateSettled (length (runs w)) o2]
          (run ([RibbonClick; MicGranted]
                ++ map (DataAvailable (length (recorders w))) before
                ++ [RibbonClick]
                ++ map (DataAvailable (length (recorders w))) after
                ++ [RecorderStopped (length (recorders w))]) w))) = false /\
  audioChunks
    (plugin
       (run [ReaderLoadEnd (length (runs w));
             FetchSettled (length (runs w)) o1;
             GenerateSettled (length (runs w)) o2]
          (run ([RibbonClick; MicGranted]
                ++ map (DataAvailable (length (recorders w))) before
                ++ [RibbonClick]
                ++ map (DataAvailable (length (recorders w))) after
                ++ [RecorderStopped (length (recorders w))]) w))) = [].
Proof.
  intros Hq Hoff.
  unfold quiescent in Hq. apply andb_true_iff in Hq as [Hrecs Hruns].
  apply negb_true_iff in Hrecs, Hruns.
  rewrite (run_app [RibbonClick; MicGranted]), (started_world w Hoff).
  set (w1 := startRecording_granted _).
  destruct (period_world w1 (length (recorders w)) before after) as (Pruns & Precs & Pflag).
  { reflexivity. }
  { reflexivity. }
  { unfold w1. simpl. now apply list_lookup_middle. }
  set (wp := run (map (DataAvailable (length (recorders w))) before ++ _) w1) in *.
  set (b := new_Blob _ _) in Pruns.
  assert (Hreading : runs wp !! length (runs w) = Some (Reading b)).
  { rewrite Pruns. unfold w1. simpl. now apply list_lookup_middle. }
  destruct (whole_run wp (length (runs w)) b o1 o2 Hreading) as (Hend & Hempty & Hsame & Hflag).
  split; [| split; [now rewrite Hflag | exact Hempty]].
  unfold quiescent. rewrite Hsame, Precs. apply andb_true_iff. split; apply negb_true_iff.
  - (* the recorders: those of before, and the new one, now inactive *)
    unfold w1. simpl.
    rewrite insert_app_r_alt by lia. rewrite Nat.sub_diag. simpl.
    rewrite existsb_app, Hrecs. reflexivity.
  - (* the runs: those of before, and the new one, now settled *)
    apply existsb_false_lookup. intros i s Hi.
    destruct (Nat.eq_dec i (length (runs w))) as [-> | Hne].
    + rewrite Hend in Hi. now injection Hi as <-.
    + revert Hi.
      change (run [ReaderLoadEnd (length (runs w)); FetchSettled (length (runs w)) o1;
                   GenerateSettled (length (runs w)) o2] wp)
        with (step (GenerateSettled (length (runs w)) o2)
                (step (FetchSettled (length (runs w)) o1)
                   (step (ReaderLoadEnd (length (runs w))) wp))).
      rewrite (other_runs (GenerateSettled (length (runs w)) o2) _ _ i Hne eq_refl).
      rewrite (other_runs (FetchSettled (length (runs w)) o1) _ _ i Hne eq_refl).
      rewrite (other_runs (ReaderLoadEnd (length (runs w))) _ _ i Hne eq_refl).
      rewrite Pruns. unfold w1. simpl. intros Hi.
      apply lookup_app_Some in Hi as [Hi | [Hle Hi]].
      * exact (lookup_existsb_false in_flight _ i s Hruns Hi).
      * destruct (i - length (runs w)) as [|k] eqn:Hk; [lia | destruct k; discriminate Hi].
Qed.

End Properties.


(** ** The claims on concrete scenarios *)

Local Abbreviation sample_step := (step Sample.to_number_gt0 Sample.to_string).
Local Abbreviation sample_run := (run Sample.to_number_gt0 Sample.to_string).

(** C2, as the code has it, on a run whose recognition request fails on
    the network, with nothing else under way. *)
Lemma C2_witness :
  count is_clear
    (trace 0
       (sample_run (ReaderLoadEnd 0
                    :: [] ++ FetchSettled 0 (NetworkFailure Sample.failed_to_fetch)
                    :: [] ++ [GenerateSettled 0 (GenerateText "late")])
          (sample_run Sample.to_processing (onload Sample.both_keys)))) = 1 /\
  audioChunks
    (plugin (sample_step (FetchSettled 0 (NetworkFailure Sample.failed_to_fetch))
               (sample_run [ReaderLoadEnd 0]
                  (sample_run Sample.to_processing (onload Sample.both_keys))))) = [] /\
  machine_state
    (sample_step (FetchSettled 0 (NetworkFailure Sample.failed_to_fetch))
       (sample_run [ReaderLoadEnd 0]
          (sample_run Sample.to_processing (onload Sample.both_keys)))) = Idle.
Proof.
  assert (Hs : runs (sample_run Sample.to_processing (onload Sample.both_keys)) !! 0
               = Some (Reading {| blob_bytes := [x01; x02; x03; x04; x05];
                                  blob_type := "audio/webm" |}))
    by (vm_compute; reflexivity).
  destruct (C2_buffer_cleared_once_then_idle Sample.to_number_gt0 Sample.to_string
              Sample.both_keys Sample.to_processing [] [] 0 _
              (NetworkFailure Sample.failed_to_fetch) (GenerateText "late")
              Hs eq_refl eq_refl)
    as (_ & _ & Honce & Hstep).
  assert (Hin : runs (sample_run [ReaderLoadEnd 0]
                        (sample_run Sample.to_processing (onload Sample.both_keys))) !! 0
                = Some Fetching) by (vm_compute; reflexivity).
  assert (Hset : runs (sample_step (FetchSettled 0 (NetworkFailure Sample.failed_to_fetch))
                         (sample_run [ReaderLoadEnd 0]
                            (sample_run Sample.to_processing (onload Sample.both_keys))))
                   !! 0
                 = Some (Settled (TranscribeRejected
                                    (JS.ThrownError Sample.failed_to_fetch))))
    by (vm_compute; reflexivity).
  destruct (Hstep [ReaderLoadEnd 0] (FetchSettled 0 (NetworkFailure Sample.failed_to_fetch))
              Fetching _ Hin eq_refl Hset)
    as (Hempty & _ & _ & Hidle).
  split.
  - specialize (Honce []). rewrite run_nil in Honce. exact Honce.
  - split; [exact Hempty |]. apply Hidle.
    split; [vm_compute; reflexivity |]. split; [vm_compute; reflexivity |].
    intros t' s' Hlook _. vm_compute in Hlook.
    destruct t' as [|t']; [reflexivity | discriminate Hlook].
Defined.

(** C2 as the specification states it fails: the run settles while a second
    recording is under way.  The machine is [Recording], not [Idle], and
    the clearing discards the segment of the second recording, whose own
    blob is then empty. *)
Lemma C2_counterexample :
  runs (sample_run (Sample.to_fetching
                    ++ [RibbonClick; MicGranted; DataAvailable 1 Sample.b3])
          (onload Sample.both_keys)) !! 0 = Some Fetching /\
  audioChunks
    (plugin (sample_run (Sample.to_fetching
                         ++ [RibbonClick; MicGranted; DataAvailable 1 Sample.b3])
               (onload Sample.both_keys)))
  = [Sample.b1; Sample.b2; Sample.b3] /\
  runs (sample_step (FetchSettled 0 (NetworkFailure Sample.failed_to_fetch))
          (sample_run (Sample.to_fetching
                       ++ [RibbonClick; MicGranted; DataAvailable 1 Sample.b3])
             (onload Sample.both_keys))) !! 0
  = Some (Settled (TranscribeRejected (JS.ThrownError Sample.failed_to_fetch))) /\
  machine_state
    (sample_step (FetchSettled 0 (NetworkFailure Sample.failed_to_fetch))
       (sample_run (Sample.to_fetching
                    ++ [RibbonClick; MicGranted; DataAvailable 1 Sample.b3])
          (onload Sample.both_keys))) = Recording /\
  audioChunks
    (plugin (sample_step (FetchSettled 0 (NetworkFailure Sample.failed_to_fetch))
               (sample_run (Sample.to_fetching
                            ++ [RibbonClick; MicGranted; DataAvailable 1 Sample.b3])
                  (onload Sample.both_keys)))) = [] /\
  runs (sample_run [RibbonClick; RecorderStopped 1]
          (sample_step (FetchSettled 0 (NetworkFailure Sample.failed_to_fetch))
             (sample_run (Sample.to_fetching
                          ++ [RibbonClick; MicGranted; DataAvailable 1 Sample.b3])
                (onload Sample.both_keys)))) !! 1
  = Some (Reading {| blob_bytes := []; blob_type := "audio/webm" |}).
Proof. repeat split; vm_compute; reflexivity. Qed.

(** C1 as the specification states it fails while the machine is [Processing]: a click is not
    a no-op; the microphone is requested again and, once granted, a second
    recorder records while the first run is still in flight. *)
Lemma C1_counterexample :
  machine_state (sample_run Sample.to_processing (onload Sample.both_keys)) = Processing /\
  sample_step RibbonClick (sample_run Sample.to_processing (onload Sample.both_keys))
  <> sample_run Sample.to_processing (onload Sample.both_keys) /\
  gained (sample_run Sample.to_processing (onload Sample.both_keys))
    (sample_run [RibbonClick; MicGranted]
       (sample_run Sample.to_processing (onload Sample.both_keys)))
  = [GetUserMedia; NewMediaRecorder 1; RecorderStart 1; Notice "Recording started..."] /\
  recorders (sample_run [RibbonClick; MicGranted]
               (sample_run Sample.to_processing (onload Sample.both_keys)))
  = [RecInactive; RecRecording] /\
  existsb in_flight
    (runs (sample_run [RibbonClick; MicGranted]
             (sample_run Sample.to_processing (onload Sample.both_keys)))) = true.
Proof.
  split; [vm_compute; reflexivity |]. split.
  - intros Hsame. apply (f_equal micRequests) in Hsame. vm_compute in Hsame.
    discriminate Hsame.
  - repeat split; vm_compute; reflexivity.
Qed.

(** C3 on a recording that was stopped before any segment arrived. *)
Lemma C3_witness :
  runs (sample_step (ReaderLoadEnd 0)
          (sample_step (RecorderStopped 0)
             (sample_run Sample.to_stopped_empty (onload Sample.both_keys)))) !! 0
  = Some Fetching.
Proof.
  assert (Hr : recorders (sample_run Sample.to_stopped_empty (onload Sample.both_keys)) !! 0
               = Some RecStopping) by (vm_compute; reflexivity).
  assert (He : audioChunks (plugin (sample_run Sample.to_stopped_empty
                                      (onload Sample.both_keys))) = [])
    by (vm_compute; reflexivity).
  pose proof (C3_empty_capture_is_sent Sample.to_number_gt0 Sample.to_string
                (sample_run Sample.to_stopped_empty (onload Sample.both_keys)) 0 Hr He)
    as (_ & _ & Hfetching & _).
  vm_compute in Hfetching |- *. exact Hfetching.
Defined.

(** C3 as the specification states it fails: with no segment appended, no error is raised and
    the pipeline runs; the recognition request goes out with an empty
    content. *)
Lemma C3_counterexample :
  audioChunks (plugin (sample_run Sample.to_stopped_empty (onload Sample.both_keys))) = [] /\
  runs (sample_run [RecorderStopped 0; ReaderLoadEnd 0]
          (sample_run Sample.to_stopped_empty (onload Sample.both_keys)))
  = [Fetching] /\
  gained (sample_run Sample.to_stopped_empty (onload Sample.both_keys))
    (sample_run [RecorderStopped 0; ReaderLoadEnd 0]
       (sample_run Sample.to_stopped_empty (onload Sample.both_keys)))
  = [ReadAsDataURL {| blob_bytes := []; blob_type := "audio/webm" |};
     Fetch {| req_url := "https://speech.googleapis.com/v1/speech:recognize?key=g-key";
              req_method := "POST";
              req_content_type := "application/json";
              req_config := {| cfg_encoding := "WEBM_OPUS"; cfg_sampleRateHertz := 48000;
                               cfg_languageCode := "en-US" |};
              req_content := Some "" |}].
Proof. repeat split; vm_compute; reflexivity. Qed.

(** C4 as the specification states it fails: a response with a status that is not a success,
    whose body reports an error, is rejected with the string of the empty
    result, exactly as a successful response that holds no result. *)
Lemma C4_counterexample :
  Sample.transcribe (Decoded 403 Sample.service_error)
  = JS.Abrupt (JS.ThrownString "No transcript found") /\
  Sample.transcribe (Decoded 403 Sample.service_error)
  = Sample.transcribe (Decoded 200 (JS.Obj [])).
Proof. split; vm_compute; reflexivity. Qed.

(** C5 on a run whose recognition request fails on the network, and on a
    run whose request to the generative service is rejected. *)
Lemma C5_witness :
  (count is_refinement
     (trace 0 (sample_step (FetchSettled 0 (NetworkFailure Sample.failed_to_fetch))
                 (sample_run Sample.to_fetching (onload Sample.both_keys)))) = 0 /\
   count is_delivery
     (trace 0 (sample_step (FetchSettled 0 (NetworkFailure Sample.failed_to_fetch))
                 (sample_run Sample.to_fetching (onload Sample.both_keys)))) = 0) /\
  count is_delivery
    (trace 0 (sample_run [GenerateSettled 0 (GenerateFailed Sample.overloaded)]
                (sample_step (FetchSettled 0 Sample.heard)
                   (sample_run Sample.to_fetching (onload Sample.both_keys))))) = 0.
Proof.
  assert (Hs : runs (sample_run Sample.to_fetching (onload Sample.both_keys)) !! 0
               = Some Fetching) by (vm_compute; reflexivity).
  destruct (C5_failure_aborts_the_rest Sample.to_number_gt0 Sample.to_string
              Sample.both_keys Sample.to_fetching [] 0
              (NetworkFailure Sample.failed_to_fetch) Hs)
    as (Hfail & _).
  destruct (Hfail (JS.ThrownError Sample.failed_to_fetch) eq_refl) as (_ & Hnone & Hnot).
  rewrite run_nil in Hnone, Hnot.
  destruct (C5_failure_aborts_the_rest Sample.to_number_gt0 Sample.to_string
              Sample.both_keys Sample.to_fetching
              [GenerateSettled 0 (GenerateFailed Sample.overloaded)] 0 Sample.heard Hs)
    as (_ & _ & _ & Hrefine & _).
  split; [split; [exact Hnone | exact Hnot] |].
  apply (Hrefine (JS.ThrownError Sample.overloaded)). vm_compute. reflexivity.
Defined.



(** C7, as the code has it, on both sides: loaded with the credential, the request
    goes out; loaded without it, [cleanText] throws, although the
    credential has been entered since. *)
Lemma C7_witness :
  runs (sample_step (FetchSettled 0 Sample.heard)
          (sample_run Sample.to_fetching (onload Sample.both_keys))) !! 0
  = Some Generating /\
  runs (sample_step (FetchSettled 0 Sample.heard)
          (sample_run Sample.to_configured_late (onload Sample.no_data))) !! 0
  = Some (Settled (CleanTextRejected not_initialized)).
Proof.
  assert (H1 : runs (sample_run Sample.to_fetching (onload Sample.both_keys)) !! 0
               = Some Fetching) by (vm_compute; reflexivity).
  assert (H2 : runs (sample_run Sample.to_configured_late (onload Sample.no_data)) !! 0
               = Some Fetching) by (vm_compute; reflexivity).
  assert (Hheard : transcribeAudio_settled Sample.to_number_gt0 Sample.heard
                   = JS.Normal (JS.Str "test phrase")) by (vm_compute; reflexivity).
  destruct (C7_refine_gated_by_credential_at_load Sample.to_number_gt0 Sample.to_string
              Sample.both_keys Sample.to_fetching 0 Sample.heard "test phrase" H1 Hheard)
    as (_ & Hset).
  destruct (C7_refine_gated_by_credential_at_load Sample.to_number_gt0 Sample.to_string
              Sample.no_data Sample.to_configured_late 0 Sample.heard "test phrase"
              H2 Hheard)
    as (Hunset & _).
  split.
  - apply Hset. vm_compute. discriminate.
  - apply Hunset. reflexivity.
Defined.

(** C7 as the specification states it fails both ways.  Loaded without the credential and
    configured afterwards, [cleanText] still throws and sends nothing;
    loaded with the credential and unconfigured afterwards, [cleanText]
    still sends the request, with the credential found at load. *)
Lemma C7_counterexample :
  (geminiApiKey
     (settings (plugin (sample_run Sample.to_configured_late (onload Sample.no_data))))
   = "gem-key" /\
   gained (sample_run Sample.to_configured_late (onload Sample.no_data))
     (sample_step (FetchSettled 0 Sample.heard)
        (sample_run Sample.to_configured_late (onload Sample.no_data)))
   = [CallCleanText (JS.Str "test phrase"); failure_notice;
      ConsoleError None not_initialized; ClearChunks]) /\
  (geminiApiKey
     (settings (plugin (sample_run Sample.to_erased_late (onload Sample.both_keys))))
   = "" /\
   gained (sample_run Sample.to_erased_late (onload Sample.both_keys))
     (sample_step (FetchSettled 0 Sample.heard)
        (sample_run Sample.to_erased_late (onload Sample.both_keys)))
   = [CallCleanText (JS.Str "test phrase");
      GenerateContent {| gen_client := {| apiKey := "gem-key" |};
                         gen_model := "gemini-pro";
                         gen_prompt := instruction ++ "test phrase" |}]).
Proof. repeat split; vm_compute; reflexivity. Qed.

(** C8, as the code has it, on a run that completes while a note is open. *)
Lemma C8_witness :
  List.filter is_delivery
    (trace 0 (sample_step (GenerateSettled 0 (GenerateText "Test phrase."))
                (sample_run Sample.to_generating (onload Sample.both_keys))))
  = [ReplaceSelection "Test phrase."].
Proof.
  assert (Hs : runs (sample_run Sample.to_generating (onload Sample.both_keys)) !! 0
               = Some Generating) by (vm_compute; reflexivity).
  destruct (C8_delivery_needs_an_editor Sample.to_number_gt0 Sample.to_string
              Sample.both_keys Sample.to_generating [] 0 "Test phrase." Hs)
    as (_ & _ & Hdelivered).
  rewrite run_nil in Hdelivered.
  assert (Hed : activeEditor (sample_run Sample.to_generating (onload Sample.both_keys))
                = true) by (vm_compute; reflexivity).
  rewrite Hed in Hdelivered. exact Hdelivered.
Defined.

(** C8 as the specification states it fails: transcription and refinement succeed, no failure
    is reported, and the editor is never called, because no note is open. *)
Lemma C8_counterexample :
  runs (sample_step (GenerateSettled 0 (GenerateText "Test phrase."))
          (sample_run Sample.to_generating_without_editor (onload Sample.both_keys)))
  = [Settled (Completed "Test phrase." false)] /\
  gained (sample_run Sample.to_generating_without_editor (onload Sample.both_keys))
    (sample_step (GenerateSettled 0 (GenerateText "Test phrase."))
       (sample_run Sample.to_generating_without_editor (onload Sample.both_keys)))
  = [ClearChunks] /\
  count is_delivery
    (trace 0 (sample_step (GenerateSettled 0 (GenerateText "Test phrase."))
                (sample_run Sample.to_generating_without_editor
                   (onload Sample.both_keys)))) = 0.
Proof. repeat split; vm_compute; reflexivity. Qed.

(** C9 on the transcript [test phrase] and the completion [Test phrase.] *)
Lemma C9_witness :
  gained (sample_run Sample.to_fetching (onload Sample.both_keys))
    (sample_step (FetchSettled 0 Sample.heard)
       (sample_run Sample.to_fetching (onload Sample.both_keys)))
  = [CallCleanText (JS.Str "test phrase");
     GenerateContent {| gen_client := {| apiKey := "gem-key" |};
                        gen_model := "gemini-pro";
                        gen_prompt := instruction ++ "test phrase" |}] /\
  cleanText_settled (GenerateText "Test phrase.") = JS.Normal "Test phrase.".
Proof.
  assert (Hs : runs (sample_run Sample.to_fetching (onload Sample.both_keys)) !! 0
               = Some Fetching) by (vm_compute; reflexivity).
  assert (Hheard : transcribeAudio_settled Sample.to_number_gt0 Sample.heard
                   = JS.Normal (JS.Str "test phrase")) by (vm_compute; reflexivity).
  assert (Hg : genAI (plugin (sample_run Sample.to_fetching (onload Sample.both_keys)))
               = Some {| apiKey := "gem-key" |}) by (vm_compute; reflexivity).
  destruct (C9_prompt_and_completion_verbatim Sample.to_number_gt0 Sample.to_string
              Sample.both_keys Sample.to_fetching 0 Sample.heard
              {| apiKey := "gem-key" |} "test phrase" "Test phrase." Hs Hheard Hg)
    as (Hprompt & _ & _ & _ & Hreturn & _).
  split; [exact Hprompt | exact Hreturn].
Defined.

(** ** The further properties on concrete scenarios *)

(** X1 on a response with one result. *)
Lemma X1_witness :
  transcribeAudio_settled Sample.to_number_gt0
    (Decoded 200 (Sample.recognized "test phrase"))
  = JS.Normal (JS.Str "test phrase").
Proof.
  exact (X1_first_alternative_of_first_result Sample.to_number_gt0 200
           [("results",
             JS.Arr [JS.Obj [("alternatives",
                              JS.Arr [JS.Obj [("transcript", JS.Str "test phrase");
                                              ("confidence", JS.Num 1)]])]])]
           [("alternatives",
             JS.Arr [JS.Obj [("transcript", JS.Str "test phrase");
                             ("confidence", JS.Num 1)]])]
           [("transcript", JS.Str "test phrase"); ("confidence", JS.Num 1)]
           [] [] (JS.Str "test phrase") eq_refl eq_refl eq_refl).
Defined.

(** X2 on a result that carries no alternatives. *)
Lemma X2_witness :
  runs (sample_step (FetchSettled 0 (Decoded 200 (JS.Obj Sample.no_alternatives)))
          (sample_run Sample.to_fetching (onload Sample.both_keys))) !! 0
  = Some (Settled (TranscribeRejected (JS.cannot_read JS.Undefined JS.KIndex0))).
Proof.
  assert (Hs : runs (sample_run Sample.to_fetching (onload Sample.both_keys)) !! 0
               = Some Fetching) by (vm_compute; reflexivity).
  pose proof (X2_result_without_alternatives_rejects_with_TypeError
                Sample.to_number_gt0 Sample.to_string
                (sample_run Sample.to_fetching (onload Sample.both_keys)) 0 200
                Sample.no_alternatives [("resultEndTime", JS.Str "1.5s")] []
                Hs eq_refl eq_refl) as (_ & _ & Hend & _).
  exact Hend.
Defined.

(** X3 on an alternative that carries no transcript. *)
Lemma X3_witness :
  gained (sample_run Sample.to_fetching (onload Sample.both_keys))
    (sample_step (FetchSettled 0 (Decoded 200 (JS.Obj Sample.no_transcript_field)))
       (sample_run Sample.to_fetching (onload Sample.both_keys)))
  = [CallCleanText JS.Undefined;
     GenerateContent {| gen_client := {| apiKey := "gem-key" |};
                        gen_model := "gemini-pro";
                        gen_prompt := instruction ++ "undefined" |}].
Proof.
  assert (Hs : runs (sample_run Sample.to_fetching (onload Sample.both_keys)) !! 0
               = Some Fetching) by (vm_compute; reflexivity).
  assert (Hg : genAI (plugin (sample_run Sample.to_fetching (onload Sample.both_keys)))
               = Some {| apiKey := "gem-key" |}) by (vm_compute; reflexivity).
  pose proof (X3_missing_transcript_is_sent_as_undefined
                Sample.to_number_gt0 Sample.to_string
                (sample_run Sample.to_fetching (onload Sample.both_keys)) 0 200
                {| apiKey := "gem-key" |} Sample.no_transcript_field
                [("alternatives", JS.Arr [JS.Obj [("confidence", JS.Num 1)]])]
                [("confidence", JS.Num 1)] [] []
                Hs Hg eq_refl eq_refl eq_refl) as (_ & _ & Hsent).
  exact Hsent.
Defined.

(** X4 on the two segments of the sample recording. *)
Lemma X4_witness :
  gained (sample_run Sample.to_processing (onload Sample.both_keys))
    (sample_step (ReaderLoadEnd 0)
       (sample_run Sample.to_processing (onload Sample.both_keys)))
  = [Fetch {| req_url := "https://speech.googleapis.com/v1/speech:recognize?key=g-key";
              req_method := "POST";
              req_content_type := "application/json";
              req_config := {| cfg_encoding := "WEBM_OPUS"; cfg_sampleRateHertz := 48000;
                               cfg_languageCode := "en-US" |};
              req_content := Some "AQIDBAU=" |}].
Proof.
  assert (Hs : runs (sample_run Sample.to_processing (onload Sample.both_keys)) !! 0
               = Some (Reading {| blob_bytes := [x01; x02; x03; x04; x05];
                                  blob_type := "audio/webm" |}))
    by (vm_compute; reflexivity).
  pose proof (X4_recognition_request Sample.to_number_gt0 Sample.to_string
                Sample.both_keys Sample.to_processing 0 _ Hs) as Hsent.
  vm_compute in Hsent |- *. exact Hsent.
Defined.

(** X6 on a run whose recognition request fails on the network. *)
Lemma X6_witness :
  List.filter is_notice
    (trace 0 (sample_run (Sample.to_fetching
                          ++ [FetchSettled 0 (NetworkFailure Sample.failed_to_fetch)])
                (onload Sample.both_keys)))
  = [failure_notice].
Proof.
  assert (Hs : runs (sample_run (Sample.to_fetching
                                 ++ [FetchSettled 0 (NetworkFailure Sample.failed_to_fetch)])
                       (onload Sample.both_keys)) !! 0
               = Some (Settled (TranscribeRejected (JS.ThrownError Sample.failed_to_fetch))))
    by (vm_compute; reflexivity).
  pose proof (X6_failures_are_reported_once Sample.to_number_gt0 Sample.to_string
                Sample.both_keys
                (Sample.to_fetching
                 ++ [FetchSettled 0 (NetworkFailure Sample.failed_to_fetch)])
                0 _ Hs) as (Honce & _).
  exact Honce.
Defined.


(** X9 right after load: through a stop, a confirmation and a whole
    further recording, [stop()] is never called on the first recorder,
    which is still recording. *)
Lemma X9_witness :
  List.filter (is_stop_of 0)
    (log (sample_run [RibbonClick; RecorderStopped 1; RibbonClick; MicGranted; RibbonClick;
                      RecorderStopped 2]
            (sample_run [RibbonClick; RibbonClick; MicGranted; MicGranted]
               (onload Sample.both_keys)))) = [] /\
  recorders
    (sample_run [RibbonClick; RecorderStopped 1; RibbonClick; MicGranted; RibbonClick;
                 RecorderStopped 2]
       (sample_run [RibbonClick; RibbonClick; MicGranted; MicGranted]
          (onload Sample.both_keys))) !! 0
  = Some RecRecording.
Proof.
  assert (Hoff : isRecording (plugin (onload Sample.both_keys)) = false)
    by (vm_compute; reflexivity).
  pose proof (X9_double_click_leaves_a_recorder_running
                Sample.to_number_gt0 Sample.to_string (onload Sample.both_keys)
                [RibbonClick; RecorderStopped 1; RibbonClick; MicGranted; RibbonClick;
                 RecorderStopped 2] Hoff) as (_ & _ & Hnever & Hstill).
  vm_compute in Hnever, Hstill |- *. split; [exact Hnever | exact Hstill].
Defined.

(** X10 on a recording that the recorder ends after one segment: a run is
    started, and the next click only lowers the flag. *)
Lemma X10_witness :
  runs (sample_run (map (DataAvailable 0) [Sample.b1] ++ [RecorderStopped 0])
          (sample_run Sample.to_recording (onload Sample.both_keys)))
  = [Reading {| blob_bytes := [x01; x02; x03]; blob_type := "audio/webm" |}] /\
  gained (sample_run (map (DataAvailable 0) [Sample.b1] ++ [RecorderStopped 0])
            (sample_run Sample.to_recording (onload Sample.both_keys)))
    (sample_step RibbonClick
       (sample_run (map (DataAvailable 0) [Sample.b1] ++ [RecorderStopped 0])
          (sample_run Sample.to_recording (onload Sample.both_keys))))
  = [RecorderStop 0; Notice "Recording stopped."].
Proof.
  assert (H1 : isRecording
                 (plugin (sample_run Sample.to_recording (onload Sample.both_keys))) = true)
    by (vm_compute; reflexivity).
  assert (H2 : mediaRecorder
                 (plugin (sample_run Sample.to_recording (onload Sample.both_keys)))
               = Some 0) by (vm_compute; reflexivity).
  assert (H3 : recorders (sample_run Sample.to_recording (onload Sample.both_keys)) !! 0
               = Some RecRecording) by (vm_compute; reflexivity).
  destruct (X10_recorder_stopped_on_its_own Sample.to_number_gt0 Sample.to_string
              (sample_run Sample.to_recording (onload Sample.both_keys)) 0 [Sample.b1]
              H1 H2 H3)
    as (Hruns & _ & _ & Hclick & _).
  split; [| exact Hclick].
  vm_compute in Hruns |- *. exact Hruns.
Defined.

(** X11 after a whole recording has been transcribed, refined and
    delivered. *)
Lemma X11_witness :
  audioChunks
    (plugin (sample_run (Sample.to_generating
                         ++ [GenerateSettled 0 (GenerateText "Test phrase.")])
               (onload Sample.both_keys))) = [] /\
  machine_state
    (sample_run (Sample.to_generating ++ [GenerateSettled 0 (GenerateText "Test phrase.")])
       (onload Sample.both_keys)) = Idle.
Proof.
  assert (Hq : quiescent
                 (sample_run (Sample.to_generating
                              ++ [GenerateSettled 0 (GenerateText "Test phrase.")])
                    (onload Sample.both_keys)) = true)
    by (vm_compute; reflexivity).
  assert (Hoff : isRecording
                   (plugin (sample_run (Sample.to_generating
                                        ++ [GenerateSettled 0 (GenerateText "Test phrase.")])
                              (onload Sample.both_keys))) = false)
    by (vm_compute; reflexivity).
  destruct (X11_nothing_left_over_when_idle Sample.to_number_gt0 Sample.to_string
              Sample.both_keys
              (Sample.to_generating ++ [GenerateSettled 0 (GenerateText "Test phrase.")])
              Hq)
    as (Hempty & Hidle & _).
  split; [exact Hempty | exact (Hidle Hoff)].
Defined.

(** X12 on the sample recording, with both services answering. *)
Lemma X12_witness :
  runs (sample_run [ReaderLoadEnd 0; FetchSettled 0 Sample.heard;
                    GenerateSettled 0 (GenerateText "Test phrase.")]
          (sample_run Sample.to_processing (onload Sample.both_keys))) !! 0
  = Some (Settled (Completed "Test phrase." true)).
Proof.
  assert (Hs : runs (sample_run Sample.to_processing (onload Sample.both_keys)) !! 0
               = Some (Reading {| blob_bytes := [x01; x02; x03; x04; x05];
                                  blob_type := "audio/webm" |}))
    by (vm_compute; reflexivity).
  pose proof (X12_run_as_a_whole Sample.to_number_gt0 Sample.to_string
                (sample_run Sample.to_processing (onload Sample.both_keys)) 0 _
                Sample.heard (GenerateText "Test phrase.") Hs) as (Hend & _).
  vm_compute in Hend |- *. exact Hend.
Defined.

(** X13 on a first cycle after load, with both services answering. *)
Lemma X13_witness :
  quiescent
    (sample_run [ReaderLoadEnd 0; FetchSettled 0 Sample.heard;
                 GenerateSettled 0 (GenerateText "Test phrase.")]
       (sample_run [RibbonClick; MicGranted; DataAvailable 0 Sample.b1; RibbonClick;
                    DataAvailable 0 Sample.b2; RecorderStopped 0]
          (sample_run [ActiveViewChanged true] (onload Sample.both_keys)))) = true.
Proof.
  assert (Hq : quiescent (sample_run [ActiveViewChanged true] (onload Sample.both_keys))
               = true) by (vm_compute; reflexivity).
  assert (Hoff : isRecording
                   (plugin (sample_run [ActiveViewChanged true] (onload Sample.both_keys)))
                 = false) by (vm_compute; reflexivity).
  pose proof (X13_a_cycle_returns_to_rest Sample.to_number_gt0 Sample.to_string
                (sample_run [ActiveViewChanged true] (onload Sample.both_keys))
                [Sample.b1] [Sample.b2] Sample.heard (GenerateText "Test phrase.") Hq Hoff)
    as (Hrest & _).
  vm_compute in Hrest |- *. exact Hrest.
Defined.
